(** * waveform: the batch rendering command, embedded and verified

    A shallow embedding of [cmd/waveform/waveform.go]: the colour parsing
    ([hexToRGB]), the flag driven rendering policy, and the batch loop of
    [main] that reads a JSON envelope from standard input, renders every
    request whose function is "waveform" and prints the responses.

    Go strings and byte slices are sequences of 8-bit bytes; both are
    embedded as [string] (a list of [ascii]).  Unsigned machine integers are
    embedded as [Z] with the wrap-around written out. *)

From Stdlib Require Import ZArith List String Ascii Bool Lia.
Import ListNotations.

Local Open Scope string_scope.
Local Open Scope Z_scope.

(** ** Bytes *)

(** The numeric value of a byte, and the byte of a number (Go's [byte(x)]
    conversion truncates to the low 8 bits). *)
Definition byte (c : ascii) : Z := Z.of_N (N_of_ascii c).

Definition chr (z : Z) : ascii := ascii_of_N (Z.to_N (z mod 256)).

Definition uint8 (z : Z) : Z := z mod 2 ^ 8.

Definition uint64 (z : Z) : Z := z mod 2 ^ 64.

Definition len (s : string) : Z := Z.of_nat (String.length s).

(** String literals of this file write the double quote as an apostrophe;
    [lit] puts the double quotes back. *)
Fixpoint lit (s : string) : string :=
  match s with
  | EmptyString => EmptyString
  | String c s' => String (if Ascii.eqb c "'" then "034"%char else c) (lit s')
  end.

(** ** strconv.ParseUint *)

Module strconv.

Inductive NumError : Set :=
| ErrSyntax
| ErrRange
| ErrBase
| ErrBitSize.

(** [lower(c)] is [c | ('x' - 'X')]. *)
Definition lower (c : Z) : Z := Z.lor c 32.

Definition maxUint64 : Z := 2 ^ 64 - 1.

(** The digit a byte stands for, before the comparison with the base. *)
Definition digit (c : Z) : option Z :=
  if (48 <=? c) && (c <=? 57) then Some (c - 48)
  else if (97 <=? lower c) && (lower c <=? 122) then Some (lower c - 97 + 10)
  else None.

(** The loop over the bytes of the argument; [n] is the accumulator, a
    [uint64]. *)
Fixpoint parseLoop (base cutoff maxVal : Z) (s : string) (n : Z)
  : Z * option NumError :=
  match s with
  | EmptyString => (n, None)
  | String c s' =>
      match digit (byte c) with
      | None => (0, Some ErrSyntax)
      | Some d =>
          if d >=? base then (0, Some ErrSyntax)
          else if n >=? cutoff then (maxVal, Some ErrRange)
          else
            let n0 := uint64 (n * base) in
            let n1 := uint64 (n0 + d) in
            if (n1 <? n0) || (n1 >? maxVal) then (maxVal, Some ErrRange)
            else parseLoop base cutoff maxVal s' n1
      end
  end.

(** [ParseUint s base bitSize] for an explicit base, 2 to 36.  Base 0 (the
    prefix driven form) is never requested by this program and is reported
    like any other base outside that range. *)
Definition ParseUint (s : string) (base bitSize : Z) : Z * option NumError :=
  match s with
  | EmptyString => (0, Some ErrSyntax)
  | _ =>
      if negb ((2 <=? base) && (base <=? 36)) then (0, Some ErrBase)
      else
        let bitSize := if bitSize =? 0 then 64 else bitSize in
        if (bitSize <? 0) || (bitSize >? 64) then (0, Some ErrBitSize)
        else
          let cutoff := maxUint64 / base + 1 in
          let maxVal := uint64 (uint64 (Z.shiftl 1 bitSize) - 1) in
          parseLoop base cutoff maxVal s 0
  end.

End strconv.

(** ** hexToRGB *)

(** [hexToRGB] converts a hex string to a RGB triple. *)
Definition hexToRGB (h : string) : Z * Z * Z :=
  let h :=
    match h with
    | String c t => if Ascii.eqb c "#" then t else h
    | EmptyString => h
    end in
  let h :=
    if len h =? 3 then
      substring 0 1 h ++ substring 0 1 h ++
      substring 1 1 h ++ substring 1 1 h ++
      substring 2 (String.length h - 2) h ++ substring 2 (String.length h - 2) h
    else h in
  if len h =? 6 then
    match strconv.ParseUint h 16 32 with
    | (rgb, None) =>
        (uint8 (Z.shiftr rgb 16),
         uint8 (Z.land (Z.shiftr rgb 8) 255),
         uint8 (Z.land rgb 255))
    | (_, Some _) => (0, 0, 0)
    end
  else (0, 0, 0).

(** ** encoding/base64, the standard encoding *)

Module base64.

(** [encodeStd], the alphabet of [StdEncoding]; its padding character is
    "=" and it is not strict. *)
Definition encodeStd : string :=
  "ABCDEFGHIJKLMNOPQRSTUVWXYZabcdefghijklmnopqrstuvwxyz0123456789+/".

(** [enc.encode[i]] *)
Definition encode (i : Z) : ascii :=
  match String.get (Z.to_nat i) encodeStd with
  | Some c => c
  | None => "="%char
  end.

Fixpoint indexOf (c : ascii) (s : string) (i : Z) : Z :=
  match s with
  | EmptyString => 255
  | String c' s' => if Ascii.eqb c c' then i else indexOf c s' (i + 1)
  end.

(** [enc.decodeMap[c]]: the position of [c] in the alphabet, 0xff when it
    has none. *)
Definition decodeMap (c : ascii) : Z := indexOf c encodeStd 0.

Definition sextet (val shift : Z) : ascii :=
  encode (Z.land (Z.shiftr val shift) 63).

(** [Encode]: three source bytes give four characters; a last block of one
    or two bytes is padded. *)
Fixpoint EncodeToString (src : string) : string :=
  match src with
  | EmptyString => EmptyString
  | String a EmptyString =>
      let val := Z.shiftl (byte a) 16 in
      String (sextet val 18) (String (sextet val 12) "==")
  | String a (String b EmptyString) =>
      let val := Z.lor (Z.shiftl (byte a) 16) (Z.shiftl (byte b) 8) in
      String (sextet val 18) (String (sextet val 12) (String (sextet val 6) "="))
  | String a (String b (String c rest)) =>
      let val :=
        Z.lor (Z.lor (Z.shiftl (byte a) 16) (Z.shiftl (byte b) 8)) (byte c) in
      String (sextet val 18) (String (sextet val 12)
        (String (sextet val 6) (String (sextet val 0) (EncodeToString rest))))
  end.

Inductive CorruptInputError : Set :=
| Corrupt (offset : Z).

Definition isNewline (c : ascii) : bool :=
  Ascii.eqb c "010" || Ascii.eqb c "013".

Fixpoint skipNewlines (src : string) (si : Z) : string * Z :=
  match src with
  | String c src' =>
      if isNewline c then skipNewlines src' (si + 1) else (src, si)
  | EmptyString => (src, si)
  end.

(** The bytes a quantum of [dlen] sextets gives: [dlen - 1] of them. *)
Definition quantumBytes (dbuf : list Z) : string :=
  let val :=
    Z.lor (Z.lor (Z.lor (Z.shiftl (nth 0 dbuf 0) 18) (Z.shiftl (nth 1 dbuf 0) 12))
                 (Z.shiftl (nth 2 dbuf 0) 6)) (nth 3 dbuf 0) in
  let b0 := chr (Z.shiftr val 16) in
  let b1 := chr (Z.shiftr val 8) in
  let b2 := chr val in
  match List.length dbuf with
  | 4%nat => String b0 (String b1 (String b2 EmptyString))
  | 3%nat => String b0 (String b1 EmptyString)
  | 2%nat => String b0 EmptyString
  | _ => EmptyString
  end.

(** What is left to check once a quantum has met its padding: newlines are
    skipped, and anything after them is trailing garbage. *)
Definition afterPadding (dbuf : list Z) (src : string) (si : Z)
  : string * option CorruptInputError :=
  let '(src, si) := skipNewlines src si in
  match src with
  | EmptyString => (quantumBytes dbuf, None)
  | String _ _ => (quantumBytes dbuf, Some (Corrupt si))
  end.

(** [Decode], quantum after quantum: [src] is what is left of the input
    from index [si] on, [dbuf] the sextets of the quantum read so far (its
    length is the [j] of [decodeQuantum]).  The result is the bytes written
    from here on and the error that stopped the decoding, if any.  The
    loops of [Decode] that assemble eight or four characters at a time
    give the bytes of the quanta they cover and leave every other input to
    [decodeQuantum]. *)
Fixpoint decode (src : string) (si : Z) (dbuf : list Z)
  : string * option CorruptInputError :=
  match src with
  | EmptyString =>
      match dbuf with
      | [] => (EmptyString, None)
      | _ => (EmptyString, Some (Corrupt (si - Z.of_nat (List.length dbuf))))
      end
  | String c src' =>
      let si := si + 1 in
      let out := decodeMap c in
      if negb (out =? 255) then
        let dbuf := (dbuf ++ [out])%list in
        if (List.length dbuf =? 4)%nat then
          let '(rest, err) := decode src' si [] in
          (quantumBytes dbuf ++ rest, err)
        else decode src' si dbuf
      else if isNewline c then decode src' si dbuf
      else if negb (Ascii.eqb c "=") then (EmptyString, Some (Corrupt (si - 1)))
      else
        match List.length dbuf with
        | 0%nat | 1%nat => (EmptyString, Some (Corrupt (si - 1)))
        | 2%nat =>
            let '(src2, si2) := skipNewlines src' si in
            match src2 with
            | EmptyString => (EmptyString, Some (Corrupt si2))
            | String c2 src3 =>
                if negb (Ascii.eqb c2 "=") then
                  (EmptyString, Some (Corrupt (si2 - 1)))
                else afterPadding dbuf src3 (si2 + 1)
            end
        | _ => afterPadding dbuf src' si
        end
  end.

(** [DecodeString] returns the bytes decoded before the error together
    with the error. *)
Definition DecodeString (s : string) : string * option CorruptInputError :=
  decode s 0 [].

End base64.

(** ** unicode/utf8 and unicode/utf16 *)

Module utf8.

Definition RuneError : Z := 65533.
Definition MaxRune : Z := 1114111.

Definition inRange (lo hi : Z) (c : ascii) : bool :=
  (lo <=? byte c) && (byte c <=? hi).

Definition cont (c : ascii) : Z := Z.land (byte c) 63.

(** The range the second byte must lie in, by the first byte
    ([acceptRanges]). *)
Definition accept (p0 : Z) : Z * Z :=
  if p0 =? 224 then (160, 191)
  else if p0 =? 237 then (128, 159)
  else if p0 =? 240 then (144, 191)
  else if p0 =? 244 then (128, 143)
  else (128, 191).

(** [DecodeRune p]: the first rune of [p] and its width in bytes; a byte
    that starts no well-formed sequence is [(RuneError, 1)]. *)
Definition DecodeRune (p : string) : Z * nat :=
  match p with
  | EmptyString => (RuneError, 0%nat)
  | String c0 p1 =>
      let p0 := byte c0 in
      if p0 <? 128 then (p0, 1%nat)
      else if (p0 <? 194) || (244 <? p0) then (RuneError, 1%nat)
      else
        let sz := if p0 <? 224 then 2 else if p0 <? 240 then 3 else 4 in
        let '(lo, hi) := accept p0 in
        match p1 with
        | EmptyString => (RuneError, 1%nat)
        | String c1 p2 =>
            if negb (inRange lo hi c1) then (RuneError, 1%nat)
            else if sz =? 2 then
              (Z.lor (Z.shiftl (Z.land p0 31) 6) (cont c1), 2%nat)
            else
              match p2 with
              | EmptyString => (RuneError, 1%nat)
              | String c2 p3 =>
                  if negb (inRange 128 191 c2) then (RuneError, 1%nat)
                  else if sz =? 3 then
                    (Z.lor (Z.lor (Z.shiftl (Z.land p0 15) 12)
                                  (Z.shiftl (cont c1) 6)) (cont c2), 3%nat)
                  else
                    match p3 with
                    | EmptyString => (RuneError, 1%nat)
                    | String c3 _ =>
                        if negb (inRange 128 191 c3) then (RuneError, 1%nat)
                        else
                          (Z.lor (Z.lor (Z.lor (Z.shiftl (Z.land p0 7) 18)
                                               (Z.shiftl (cont c1) 12))
                                        (Z.shiftl (cont c2) 6)) (cont c3), 4%nat)
                    end
              end
        end
  end.

Definition tx (r shift : Z) : ascii :=
  chr (Z.lor 128 (Z.land (Z.shiftr r shift) 63)).

(** [EncodeRune r]: the UTF-8 encoding of the rune; a surrogate or a value
    out of range is encoded as [RuneError]. *)
Definition EncodeRune (r : Z) : string :=
  let r :=
    if (r <? 0) || (MaxRune <? r) || ((55296 <=? r) && (r <=? 57343))
    then RuneError else r in
  if r <=? 127 then String (chr r) EmptyString
  else if r <=? 2047 then
    String (chr (Z.lor 192 (Z.shiftr r 6))) (String (tx r 0) EmptyString)
  else if r <=? 65535 then
    String (chr (Z.lor 224 (Z.shiftr r 12)))
      (String (tx r 6) (String (tx r 0) EmptyString))
  else
    String (chr (Z.lor 240 (Z.shiftr r 18)))
      (String (tx r 12) (String (tx r 6) (String (tx r 0) EmptyString))).

End utf8.

Module utf16.

Definition IsSurrogate (r : Z) : bool := (55296 <=? r) && (r <? 57344).

Definition DecodeRune (r1 r2 : Z) : Z :=
  if (55296 <=? r1) && (r1 <? 56320) && (56320 <=? r2) && (r2 <? 57344)
  then Z.lor (Z.shiftl (r1 - 55296) 10) (r2 - 56320) + 65536
  else utf8.RuneError.

End utf16.

(** ** The wire types of the batch protocol *)

Module Request.
Record t : Set := mk { Id : string; Function : string; Params : list string }.
End Request.

Module Response.
Record t : Set := mk { Id : string; Result : string; Error : string }.
End Response.

Record Requests : Set := mkRequests { Requests_ : list Request.t }.

Record Responses : Set := mkResponses { Responses_ : list Response.t }.

(** ** encoding/json, for the two envelope types

    [Unmarshal] first checks that the input is one well-formed JSON value
    and stores nothing when it is not.  It then decodes the value into the
    variable.  An object key selects the field of that name, or else the
    field whose name matches it under case folding; other keys are skipped.
    A value that does not fit the type of its field is skipped, the earliest
    such mismatch is the error returned in the end, and decoding goes on.
    [null] leaves a string or a struct as it is and makes a slice nil.  An
    array is decoded element by element into the slice it finds.

    Where releases of the library differ the later behaviour is taken for
    the scanner (nesting is limited to 10000 levels) and the earlier one for
    the encoder (backspace and form feed are written as [\u0008] and
    [\u000c]); neither bears on a property below. *)

Module json.

(** *** The scanner: tokens *)

Inductive token : Set :=
| TBeginObject | TEndObject | TBeginArray | TEndArray | TComma | TColon
| TString (raw : string)      (* the bytes between the quotes, still escaped *)
| TNumber (lit : string)
| TTrue | TFalse | TNull.

Inductive lexState : Set :=
| stateBegin
| stateInString (acc : string)
| stateInStringEsc (acc : string)
| stateInStringEscU (todo : nat) (acc : string)
| stateNeg (acc : string)
| state1 (acc : string)
| state0 (acc : string)
| stateDot (acc : string)
| stateDot0 (acc : string)
| stateE (acc : string)
| stateESign (acc : string)
| stateE0 (acc : string)
| stateLiteral (rest : string) (tok : token).

Definition snoc (acc : string) (c : ascii) : string :=
  acc ++ String c EmptyString.

Definition isSpace (c : ascii) : bool :=
  let b := byte c in (b =? 32) || (b =? 9) || (b =? 13) || (b =? 10).

Definition isDigit (c : ascii) : bool := (48 <=? byte c) && (byte c <=? 57).

Definition isHex (c : ascii) : bool :=
  let b := byte c in
  ((48 <=? b) && (b <=? 57)) || ((97 <=? b) && (b <=? 102))
  || ((65 <=? b) && (b <=? 70)).

(** A byte where a token may begin. *)
Definition beginToken (c : ascii) (out : list token)
  : option (lexState * list token) :=
  if isSpace c then Some (stateBegin, out)
  else
    match c with
    | "{"%char => Some (stateBegin, TBeginObject :: out)
    | "}"%char => Some (stateBegin, TEndObject :: out)
    | "["%char => Some (stateBegin, TBeginArray :: out)
    | "]"%char => Some (stateBegin, TEndArray :: out)
    | ","%char => Some (stateBegin, TComma :: out)
    | ":"%char => Some (stateBegin, TColon :: out)
    | "034"%char => Some (stateInString EmptyString, out)
    | "-"%char => Some (stateNeg "-", out)
    | "0"%char => Some (state0 "0", out)
    | "t"%char => Some (stateLiteral "rue" TTrue, out)
    | "f"%char => Some (stateLiteral "alse" TFalse, out)
    | "n"%char => Some (stateLiteral "ull" TNull, out)
    | _ =>
        if isDigit c then Some (state1 (String c EmptyString), out) else None
    end.

(** A number ends at the first byte that cannot continue it; that byte
    then begins the next token. *)
Definition endNumber (acc : string) (c : ascii) (out : list token)
  : option (lexState * list token) :=
  beginToken c (TNumber acc :: out).

(** One byte of input; [out] holds the tokens found so far, latest
    first. *)
Definition lexStep (st : lexState) (c : ascii) (out : list token)
  : option (lexState * list token) :=
  match st with
  | stateBegin => beginToken c out
  | stateInString acc =>
      if Ascii.eqb c "034" then Some (stateBegin, TString acc :: out)
      else if Ascii.eqb c "\" then Some (stateInStringEsc (snoc acc c), out)
      else if byte c <? 32 then None
      else Some (stateInString (snoc acc c), out)
  | stateInStringEsc acc =>
      match c with
      | "b"%char | "f"%char | "n"%char | "r"%char | "t"%char
      | "\"%char | "/"%char | "034"%char =>
          Some (stateInString (snoc acc c), out)
      | "u"%char => Some (stateInStringEscU 4 (snoc acc c), out)
      | _ => None
      end
  | stateInStringEscU todo acc =>
      if isHex c then
        match todo with
        | S (S k) => Some (stateInStringEscU (S k) (snoc acc c), out)
        | _ => Some (stateInString (snoc acc c), out)
        end
      else None
  | stateNeg acc =>
      if Ascii.eqb c "0" then Some (state0 (snoc acc c), out)
      else if isDigit c then Some (state1 (snoc acc c), out)
      else None
  | state1 acc =>
      if isDigit c then Some (state1 (snoc acc c), out)
      else if Ascii.eqb c "." then Some (stateDot (snoc acc c), out)
      else if Ascii.eqb c "e" || Ascii.eqb c "E" then Some (stateE (snoc acc c), out)
      else endNumber acc c out
  | state0 acc =>
      if Ascii.eqb c "." then Some (stateDot (snoc acc c), out)
      else if Ascii.eqb c "e" || Ascii.eqb c "E" then Some (stateE (snoc acc c), out)
      else endNumber acc c out
  | stateDot acc =>
      if isDigit c then Some (stateDot0 (snoc acc c), out) else None
  | stateDot0 acc =>
      if isDigit c then Some (stateDot0 (snoc acc c), out)
      else if Ascii.eqb c "e" || Ascii.eqb c "E" then Some (stateE (snoc acc c), out)
      else endNumber acc c out
  | stateE acc =>
      if Ascii.eqb c "+" || Ascii.eqb c "-" then Some (stateESign (snoc acc c), out)
      else if isDigit c then Some (stateE0 (snoc acc c), out)
      else None
  | stateESign acc =>
      if isDigit c then Some (stateE0 (snoc acc c), out) else None
  | stateE0 acc =>
      if isDigit c then Some (stateE0 (snoc acc c), out)
      else endNumber acc c out
  | stateLiteral rest tok =>
      match rest with
      | String r EmptyString =>
          if Ascii.eqb c r then Some (stateBegin, tok :: out) else None
      | String r rest' =>
          if Ascii.eqb c r then Some (stateLiteral rest' tok, out) else None
      | EmptyString => None
      end
  end.

(** The end of the input completes a number and nothing else. *)
Definition lexEnd (st : lexState) (out : list token) : option (list token) :=
  match st with
  | stateBegin => Some out
  | state1 acc | state0 acc | stateDot0 acc | stateE0 acc =>
      Some (TNumber acc :: out)
  | _ => None
  end.

Fixpoint lexLoop (data : string) (st : lexState) (out : list token)
  : option (list token) :=
  match data with
  | EmptyString => lexEnd st out
  | String c data' =>
      match lexStep st c out with
      | Some (st', out') => lexLoop data' st' out'
      | None => None
      end
  end.

Definition lex (data : string) : option (list token) :=
  option_map (@rev token) (lexLoop data stateBegin []).

(** *** The scanner: structure *)

#[warnings="-register-all"]
Inductive value : Set :=
| Null
| Bool (b : bool)
| Number (lit : string)
| Str (raw : string)
| Array (elems : list value)
| Object (members : list (string * value)).

(** What the scanner is inside of ([parseState]): an array, an object
    waiting for a key, or an object waiting for the value of [key].  Each
    holds what it has collected so far, latest first. *)
Inductive frame : Set :=
| parseArrayValue (done : list value)
| parseObjectKey (done : list (string * value))
| parseObjectValue (done : list (string * value)) (key : string).

Inductive expect : Set :=
| BeginValue
| BeginValueOrEmpty
| BeginString
| BeginStringOrEmpty
| ObjectColon
| EndValue
| EndTop (v : value).

Definition maxNestingDepth : Z := 10000.

(** A value is complete: it is the document, or it goes into the
    innermost open array or object. *)
Definition complete (v : value) (stack : list frame)
  : option (expect * list frame) :=
  match stack with
  | [] => Some (EndTop v, [])
  | parseArrayValue done :: stack' =>
      Some (EndValue, parseArrayValue (v :: done) :: stack')
  | parseObjectValue done key :: stack' =>
      Some (EndValue, parseObjectKey ((key, v) :: done) :: stack')
  | parseObjectKey _ :: _ => None
  end.

Definition push (f : frame) (e : expect) (stack : list frame)
  : option (expect * list frame) :=
  if Z.of_nat (List.length (f :: stack)) <=? maxNestingDepth
  then Some (e, f :: stack) else None.

Definition beginValue (t : token) (stack : list frame)
  : option (expect * list frame) :=
  match t with
  | TBeginObject => push (parseObjectKey []) BeginStringOrEmpty stack
  | TBeginArray => push (parseArrayValue []) BeginValueOrEmpty stack
  | TString raw => complete (Str raw) stack
  | TNumber l => complete (Number l) stack
  | TTrue => complete (Bool true) stack
  | TFalse => complete (Bool false) stack
  | TNull => complete Null stack
  | _ => None
  end.

Definition parseStep (e : expect) (stack : list frame) (t : token)
  : option (expect * list frame) :=
  match e, t, stack with
  | BeginValueOrEmpty, TEndArray, parseArrayValue done :: stack' =>
      complete (Array (rev done)) stack'
  | (BeginValueOrEmpty | BeginValue), _, _ => beginValue t stack
  | BeginStringOrEmpty, TEndObject, parseObjectKey done :: stack' =>
      complete (Object (rev done)) stack'
  | (BeginStringOrEmpty | BeginString), TString raw, parseObjectKey done :: stack' =>
      Some (ObjectColon, parseObjectValue done raw :: stack')
  | ObjectColon, TColon, _ => Some (BeginValue, stack)
  | EndValue, TComma, parseArrayValue _ :: _ => Some (BeginValue, stack)
  | EndValue, TEndArray, parseArrayValue done :: stack' =>
      complete (Array (rev done)) stack'
  | EndValue, TComma, parseObjectKey _ :: _ => Some (BeginString, stack)
  | EndValue, TEndObject, parseObjectKey done :: stack' =>
      complete (Object (rev done)) stack'
  | _, _, _ => None
  end.

Fixpoint parseLoop (ts : list token) (e : expect) (stack : list frame)
  : option value :=
  match ts with
  | [] => match e with EndTop v => Some v | _ => None end
  | t :: ts' =>
      match parseStep e stack t with
      | Some (e', stack') => parseLoop ts' e' stack'
      | None => None
      end
  end.

(** [scan data]: the document when [data] is one well-formed JSON value
    (what [checkValid] accepts), [None] on a syntax error. *)
Definition scan (data : string) : option value :=
  match lex data with
  | Some ts => parseLoop ts BeginValue []
  | None => None
  end.

Definition checkValid (data : string) : bool :=
  match scan data with Some _ => true | None => false end.

(** *** Decoding string literals *)

Definition hexValue (c : ascii) : option Z :=
  let b := byte c in
  if (48 <=? b) && (b <=? 57) then Some (b - 48)
  else if (97 <=? b) && (b <=? 102) then Some (b - 97 + 10)
  else if (65 <=? b) && (b <=? 70) then Some (b - 65 + 10)
  else None.

(** [getu4 s]: the rune of a [\uXXXX] at the head of [s], or [-1]. *)
Definition getu4 (s : string) : Z :=
  match s with
  | String "\" (String "u" (String a (String b (String c (String d _))))) =>
      match hexValue a, hexValue b, hexValue c, hexValue d with
      | Some a, Some b, Some c, Some d => ((a * 16 + b) * 16 + c) * 16 + d
      | _, _, _, _ => -1
      end
  | _ => -1
  end.

Definition dropBytes (n : nat) (s : string) : string :=
  substring n (String.length s - n) s.

(** The loop of [unquoteBytes] over the bytes between the quotes.  [skip]
    counts the bytes that the previous step has already consumed: the
    rest of an escape or of a multi-byte rune. *)
Fixpoint unquoteLoop (skip : nat) (s : string) : option string :=
  match s with
  | EmptyString => Some EmptyString
  | String c s' =>
      match skip with
      | S k => unquoteLoop k s'
      | O =>
          if Ascii.eqb c "\" then
            match s' with
            | EmptyString => None
            | String e _ =>
                let one (x : ascii) :=
                  option_map (String x) (unquoteLoop 1 s') in
                match e with
                | "034"%char | "\"%char | "/"%char | "'"%char => one e
                | "b"%char => one "008"%char
                | "f"%char => one "012"%char
                | "n"%char => one "010"%char
                | "r"%char => one "013"%char
                | "t"%char => one "009"%char
                | "u"%char =>
                    let rr := getu4 s in
                    if rr <? 0 then None
                    else if utf16.IsSurrogate rr then
                      let dec := utf16.DecodeRune rr (getu4 (dropBytes 6 s)) in
                      if negb (dec =? utf8.RuneError) then
                        option_map (append (utf8.EncodeRune dec))
                                   (unquoteLoop 11 s')
                      else
                        option_map (append (utf8.EncodeRune utf8.RuneError))
                                   (unquoteLoop 5 s')
                    else
                      option_map (append (utf8.EncodeRune rr))
                                 (unquoteLoop 5 s')
                | _ => None
                end
            end
          else if Ascii.eqb c "034" || (byte c <? 32) then None
          else if byte c <? 128 then option_map (String c) (unquoteLoop 0 s')
          else
            let '(rr, size) := utf8.DecodeRune s in
            option_map (append (utf8.EncodeRune rr))
                       (unquoteLoop (size - 1) s')
      end
  end.

Definition unquote (raw : string) : option string := unquoteLoop 0 raw.

(** *** Matching an object key with a struct field *)

Definition caseMask : Z := 223.

(** Equality under simple case folding, for an ASCII field name [name]:
    a letter matches either case, and "s" and "k" also match U+017F and
    U+212A. *)
Fixpoint equalFold (name key : string) : bool :=
  match name with
  | EmptyString => match key with EmptyString => true | _ => false end
  | String sb name' =>
      match key with
      | EmptyString => false
      | String tb key' =>
          if byte tb <? 128 then
            if Ascii.eqb sb tb then equalFold name' key'
            else
              let up := Z.land (byte sb) caseMask in
              if (65 <=? up) && (up <=? 90) && (up =? Z.land (byte tb) caseMask)
              then equalFold name' key' else false
          else
            let '(tr, size) := utf8.DecodeRune key in
            let up := Z.land (byte sb) caseMask in
            if ((up =? 83) && (tr =? 383)) || ((up =? 75) && (tr =? 8490))
            then equalFold name' (dropBytes size key) else false
      end
  end.

Fixpoint indexWhere (f : string -> bool) (names : list string) (i : nat)
  : option nat :=
  match names with
  | [] => None
  | n :: names' => if f n then Some i else indexWhere f names' (S i)
  end.

(** The field a key selects: the one of that very name, else the first
    that matches under case folding. *)
Definition findField (names : list string) (key : string) : option nat :=
  match indexWhere (String.eqb key) names 0 with
  | Some i => Some i
  | None => indexWhere (fun n => equalFold n key) names 0
  end.

(** *** Unmarshal into [Requests] *)

Inductive kind : Set := KObject | KArray | KString | KNumber | KBool.

Inductive Error : Set :=
| SyntaxError
| UnmarshalTypeError (Value : kind) (Type_ : string)
| PhaseError.

(** [saveError] keeps the earliest error. *)
Definition saveError (saved new : option Error) : option Error :=
  match saved with Some _ => saved | None => new end.

(** A slice while it is decoded into: its elements, and the elements that
    an earlier, longer decoding left behind them in its capacity. *)
Record slice (T : Type) : Type := mkSlice { live : list T; spare : list T }.
Arguments mkSlice {T}.
Arguments live {T}.
Arguments spare {T}.

Definition nilSlice {T : Type} : slice T := mkSlice [] [].

Record request : Type :=
  mkRequest { r_Id : string; r_Function : string; r_Params : slice string }.

Definition zeroRequest : request := mkRequest "" "" nilSlice.

Definition mismatch {T : Type} (target : T) (v : value) (ty : string)
  : T * option Error :=
  match v with
  | Null => (target, None)
  | Bool _ => (target, Some (UnmarshalTypeError KBool ty))
  | Number _ => (target, Some (UnmarshalTypeError KNumber ty))
  | Str _ => (target, Some (UnmarshalTypeError KString ty))
  | Array _ => (target, Some (UnmarshalTypeError KArray ty))
  | Object _ => (target, Some (UnmarshalTypeError KObject ty))
  end.

(** A string field: a string literal replaces it, [null] leaves it, any
    other value is a type error and leaves it too.  (A literal the scanner
    has admitted always unquotes; see [Unmarshal_no_phase_error].) *)
Definition decodeString (target : string) (v : value) : string * option Error :=
  match v with
  | Str raw =>
      match unquote raw with
      | Some s => (s, None)
      | None => (target, Some PhaseError)
      end
  | _ => mismatch target v "string"
  end.

(** The elements of an array, each decoded into the element the slice
    already has at its index ([pool]: the slice up to its capacity), or
    into a zero element beyond. *)
Fixpoint decodeElems {T : Type} (zero : T)
    (decodeElem : T -> value -> T * option Error)
    (vs : list value) (pool : list T) : list T * list T * option Error :=
  match vs with
  | [] => ([], pool, None)
  | v :: vs' =>
      let '(old, pool') :=
        match pool with
        | [] => (zero, [])
        | x :: pool' => (x, pool')
        end in
      let '(x, e) := decodeElem old v in
      let '(xs, rest, es) := decodeElems zero decodeElem vs' pool' in
      (x :: xs, rest, saveError e es)
  end.

Definition decodeSlice {T : Type} (zero : T) (ty : string)
    (decodeElem : T -> value -> T * option Error)
    (target : slice T) (v : value) : slice T * option Error :=
  match v with
  | Null => (nilSlice, None)
  | Array [] => (nilSlice, None)
  | Array vs =>
      let '(xs, rest, e) :=
        decodeElems zero decodeElem vs (live target ++ spare target)%list in
      (mkSlice xs rest, e)
  | _ => mismatch target v ty
  end.

Definition requestFields : list string := ["id"; "function"; "params"].

Definition decodeRequestField (acc : request * option Error)
    (m : string * value) : request * option Error :=
  let '(r, saved) := acc in
  let '(rawkey, v) := m in
  match unquote rawkey with
  | None => (r, saveError saved (Some PhaseError))
  | Some key =>
      match findField requestFields key with
      | Some 0%nat =>
          let '(x, e) := decodeString (r_Id r) v in
          (mkRequest x (r_Function r) (r_Params r), saveError saved e)
      | Some 1%nat =>
          let '(x, e) := decodeString (r_Function r) v in
          (mkRequest (r_Id r) x (r_Params r), saveError saved e)
      | Some _ =>
          let '(x, e) :=
            decodeSlice "" "[]string" decodeString (r_Params r) v in
          (mkRequest (r_Id r) (r_Function r) x, saveError saved e)
      | None => (r, saved)
      end
  end.

Definition decodeRequest (target : request) (v : value)
  : request * option Error :=
  match v with
  | Object members => fold_left decodeRequestField members (target, None)
  | _ => mismatch target v "main.Request"
  end.

Definition decodeRequestsField (acc : slice request * option Error)
    (m : string * value) : slice request * option Error :=
  let '(rs, saved) := acc in
  let '(rawkey, v) := m in
  match unquote rawkey with
  | None => (rs, saveError saved (Some PhaseError))
  | Some key =>
      match findField ["requests"] key with
      | Some _ =>
          let '(x, e) :=
            decodeSlice zeroRequest "[]main.Request" decodeRequest rs v in
          (x, saveError saved e)
      | None => (rs, saved)
      end
  end.

Definition decodeRequests (target : slice request) (v : value)
  : slice request * option Error :=
  match v with
  | Object members => fold_left decodeRequestsField members (target, None)
  | _ => mismatch target v "main.Requests"
  end.

Definition toRequest (r : request) : Request.t :=
  Request.mk (r_Id r) (r_Function r) (live (r_Params r)).

(** [Unmarshal data &requests] for [var requests Requests]: the value the
    variable holds afterwards and the error returned.  A document that is
    not well-formed is rejected before anything is stored. *)
Definition Unmarshal (data : string) : Requests * option Error :=
  match scan data with
  | None => (mkRequests [], Some SyntaxError)
  | Some v =>
      let '(rs, e) := decodeRequests nilSlice v in
      (mkRequests (map toRequest (live rs)), e)
  end.

(** *** Marshal of [Responses] *)

Definition hex (n : Z) : ascii :=
  match String.get (Z.to_nat n) "0123456789abcdef" with
  | Some c => c
  | None => "0"%char
  end.

Definition htmlSafe (b : Z) : bool :=
  (32 <=? b) && (b <? 128)
  && negb ((b =? 34) || (b =? 92) || (b =? 60) || (b =? 62) || (b =? 38)).

Definition escapeByte (c : ascii) : string :=
  match c with
  | "\"%char | "034"%char => String "\" (String c EmptyString)
  | "010"%char => "\n"
  | "013"%char => "\r"
  | "009"%char => "\t"
  | _ =>
      "\u00" ++ String (hex (Z.shiftr (byte c) 4))
                  (String (hex (Z.land (byte c) 15)) EmptyString)
  end.

(** The loop of the string encoder (with HTML escaping, as [Marshal]
    does).  [skip] bytes belong to a rune already dealt with: they are
    copied when [keep] holds and dropped otherwise. *)
Fixpoint appendString (skip : nat) (keep : bool) (src : string) : string :=
  match src with
  | EmptyString => EmptyString
  | String c src' =>
      match skip with
      | S k =>
          if keep then String c (appendString k keep src')
          else appendString k keep src'
      | O =>
          if byte c <? 128 then
            if htmlSafe (byte c) then String c (appendString 0 true src')
            else escapeByte c ++ appendString 0 true src'
          else
            let '(r, size) := utf8.DecodeRune src in
            if (r =? utf8.RuneError) && (size =? 1)%nat then
              "\ufffd" ++ appendString 0 true src'
            else if (r =? 8232) || (r =? 8233) then
              "\u202" ++ String (hex (Z.land r 15))
                           (appendString (size - 1) false src')
            else String c (appendString (size - 1) true src')
      end
  end.

Definition quote (s : string) : string :=
  String "034" (appendString 0 true s) ++ String "034" EmptyString.

Definition marshalResponse (r : Response.t) : string :=
  lit "{'id':" ++ quote (Response.Id r)
  ++ lit ",'result':" ++ quote (Response.Result r)
  ++ lit ",'error':" ++ quote (Response.Error r) ++ "}".

Fixpoint joinComma (l : list string) : string :=
  match l with
  | [] => EmptyString
  | [x] => x
  | x :: l' => x ++ "," ++ joinComma l'
  end.

(** [Marshal responses] for a [Responses] whose slice is not nil. *)
Definition Marshal (v : Responses) : string :=
  lit "{'responses':[" ++ joinComma (map marshalResponse (Responses_ v)) ++ "]}".

End json.

(** ** image/color, and the interface of the rendering engine *)

Module color.
Record RGBA : Set := mk { R : Z; G : Z; B : Z; A : Z }.
End color.

Module waveform.

(** The colour functions of the engine, as the values their constructors
    are applied to. *)
Inductive ColorFunc : Set :=
| CheckerColor (colorA colorB : color.RGBA) (size : Z)
| FuzzColor (colors : list color.RGBA)
| GradientColor (start stop : color.RGBA)
| SolidColor (c : color.RGBA)
| StripeColor (colors : list color.RGBA).

Inductive OptionsFunc : Set :=
| BGColorFunction (function : ColorFunc)
| FGColorFunction (function : ColorFunc)
| Resolution (resolution : Z)
| Scale (x y : Z)
| ScaleClipping
| Sharpness (sharpness : Z).

(** The errors [Generate] returns: the three the package exports, and
    any other. *)
Inductive error : Set :=
| ErrFormat
| ErrInvalidData
| ErrUnexpectedEOS
| ErrOther (msg : string).

Definition error_eqb (a b : error) : bool :=
  match a, b with
  | ErrFormat, ErrFormat => true
  | ErrInvalidData, ErrInvalidData => true
  | ErrUnexpectedEOS, ErrUnexpectedEOS => true
  | ErrOther m, ErrOther m' => String.eqb m m'
  | _, _ => false
  end.

End waveform.

(** The rendering engine is an external collaborator: [Generate] decodes
    the audio and draws the image, [tiff.Encode] serialises the image.  The
    engine may keep state of its own between calls (the fuzz colour function
    draws on a random source); [World] is that state. *)
Record Engine : Type := mkEngine {
  World : Type;
  Image : Type;
  Generate :
    World -> string -> list waveform.OptionsFunc ->
    (Image + waveform.error) * World;
  tiffBody : Image -> string + string
}.

Module tiff.

(** The header for little-endian files. *)
Definition leHeader : string :=
  String "I" (String "I" (String "042" (String "000" EmptyString))).

(** [Encode] writes the header first, and then the rest of the file (the
    offset of the directory, the pixels, the directory), which is the
    engine's. *)
Definition Encode (E : Engine) (m : Image E) : string + string :=
  match tiffBody E m with
  | inl rest => inl (leHeader ++ rest)
  | inr err => inr err
  end.

End tiff.

(** ** The command *)

(** The values of the command line flags, after [flag.Parse]. *)
Record Flags : Set := mkFlags {
  strBGColor : string;
  strFGColor : string;
  strAltColor : string;
  resolution : Z;
  scaleX : Z;
  scaleY : Z;
  sharpness : Z;
  strFn : string
}.

Definition fnChecker : string := "checker".
Definition fnFuzz : string := "fuzz".
Definition fnGradient : string := "gradient".
Definition fnSolid : string := "solid".
Definition fnStripe : string := "stripe".

Definition defaultFlags : Flags :=
  mkFlags "#FFFFFF" "#000000" "" 1 1 1 1 fnSolid.

Definition rgba (h : string) : color.RGBA :=
  let '(colorR, colorG, colorB) := hexToRGB h in
  color.mk colorR colorG colorB 255.

Definition bgColor (f : Flags) : color.RGBA := rgba (strBGColor f).

Definition fgColor (f : Flags) : color.RGBA := rgba (strFGColor f).

(** The alternate colour: the foreground colour, unless the flag is set. *)
Definition altColor (f : Flags) : color.RGBA :=
  if negb (String.eqb (strAltColor f) "") then rgba (strAltColor f)
  else fgColor f.

(** The set of available functions. *)
Definition fnSet (f : Flags) : list (string * waveform.ColorFunc) :=
  [ (fnChecker, waveform.CheckerColor (fgColor f) (altColor f) 10);
    (fnFuzz, waveform.FuzzColor [fgColor f; altColor f]);
    (fnGradient, waveform.GradientColor (fgColor f) (altColor f));
    (fnSolid, waveform.SolidColor (fgColor f));
    (fnStripe, waveform.StripeColor [fgColor f; altColor f]) ].

Fixpoint lookup {V : Type} (m : list (string * V)) (k : string) : option V :=
  match m with
  | [] => None
  | (k', v) :: m' => if String.eqb k k' then Some v else lookup m' k
  end.

(** The options every call of [Generate] is given. *)
Definition options (f : Flags) (colorFn : waveform.ColorFunc)
  : list waveform.OptionsFunc :=
  [ waveform.BGColorFunction (waveform.SolidColor (bgColor f));
    waveform.FGColorFunction colorFn;
    waveform.Resolution (resolution f);
    waveform.Scale (scaleX f) (scaleY f);
    waveform.ScaleClipping;
    waveform.Sharpness (sharpness f) ].

(** The set of known errors. *)
Definition knownErr : list waveform.error :=
  [ waveform.ErrFormat; waveform.ErrInvalidData; waveform.ErrUnexpectedEOS ].

Definition known (err : waveform.error) : bool :=
  existsb (waveform.error_eqb err) knownErr.

Inductive PanicValue : Set :=
| PanicGenerate (err : waveform.error)
| PanicTiff (err : string)
| PanicIndex (index length : Z).

(** How the process ends. *)
Inductive Exit : Set :=
| Returned                              (* main returns *)
| Fatalf (fn : string)                  (* log.Fatalf: unknown function *)
| Fatal (err : waveform.error)          (* log.Fatal(err) *)
| OsExit1                               (* os.Exit(1) after a read error *)
| Panicked (v : PanicValue)
| OutOfFuel.

(** Standard input: the bytes it delivers, and how it ends, at end of file
    ([None]) or with a read error. *)
Record Stdin : Set := mkStdin { data : string; failure : option string }.

Inductive ReadError : Set :=
| EOF
| ReadFailed (msg : string).

(** The bytes up to and including the first delimiter, and what follows
    it when there is one. *)
Fixpoint splitAt (delim : ascii) (s : string) : string * option string :=
  match s with
  | EmptyString => (EmptyString, None)
  | String c s' =>
      if Ascii.eqb c delim then (String c EmptyString, Some s')
      else let '(line, rest) := splitAt delim s' in (String c line, rest)
  end.

(** [reader.ReadString(delim)]: the data up to and including the
    delimiter; when the input ends first, the data read before the end and
    the error. *)
Definition ReadString (reader : Stdin) (delim : ascii)
  : string * option ReadError * Stdin :=
  match splitAt delim (data reader) with
  | (line, Some rest) => (line, None, mkStdin rest (failure reader))
  | (line, None) =>
      (line,
       Some (match failure reader with
             | None => EOF
             | Some msg => ReadFailed msg
             end),
       mkStdin EmptyString (failure reader))
  end.

(** What a run leaves behind: how it ended, the bytes written to standard
    output, the bytes of standard input never read, and the engine's
    state. *)
Record Run (W : Type) : Type := mkRun {
  exit : Exit;
  stdout : string;
  unread : string;
  world : W
}.
Arguments mkRun {W}.
Arguments exit {W}.
Arguments stdout {W}.
Arguments unread {W}.
Arguments world {W}.

(** [fmt.Println(s)] *)
Definition Println (out s : string) : string := out ++ s ++ String "010" EmptyString.

(** One iteration of the loop over the requests. *)
Inductive Step (W : Type) : Type :=
| Continue (out : string) (w : W)
| Stop (e : Exit) (out : string) (w : W).
Arguments Continue {W}.
Arguments Stop {W}.

Definition processRequest (E : Engine) (opts : list waveform.OptionsFunc)
    (request : Request.t) (out : string) (w : World E) : Step (World E) :=
  if String.eqb (Request.Function request) "waveform" then
    match Request.Params request with
    | [] => Stop (Panicked (PanicIndex 0 0)) out w
    | p0 :: _ =>
        let '(unbased, _) := base64.DecodeString p0 in
        match Generate E w unbased opts with
        | (inr err, w') =>
            if known err then Stop (Fatal err) out w'
            else Stop (Panicked (PanicGenerate err)) out w'
        | (inl img, w') =>
            match tiff.Encode E img with
            | inr err => Stop (Panicked (PanicTiff err)) out w'
            | inl buff =>
                let encodedString := base64.EncodeToString buff in
                let responses :=
                  mkResponses [Response.mk (Request.Id request) encodedString "false"] in
                let b := json.Marshal responses in
                Continue (Println out b) w'
            end
        end
    end
  else Continue out w.

Fixpoint processRequests (E : Engine) (opts : list waveform.OptionsFunc)
    (requests : list Request.t) (out : string) (w : World E)
  : Exit * string * World E :=
  match requests with
  | [] => (Returned, out, w)
  | request :: requests' =>
      match processRequest E opts request out w with
      | Continue out' w' => processRequests E opts requests' out' w'
      | Stop e out' w' => (e, out', w')
      end
  end.

(** The loop that reads standard input line by line into [buf] and, at end
    of file, decodes and processes the batch. *)
Fixpoint readLoop (E : Engine) (opts : list waveform.OptionsFunc)
    (fuel : nat) (reader : Stdin) (buf : string) (w : World E)
  : Run (World E) :=
  match fuel with
  | O => mkRun OutOfFuel EmptyString (data reader) w
  | S fuel' =>
      let '(line, err, reader') := ReadString reader "010" in
      match err with
      | Some EOF =>
          let buf := buf ++ line in
          let '(requests, _) := json.Unmarshal buf in
          let '(e, out, w') :=
            processRequests E opts (Requests_ requests) EmptyString w in
          mkRun e out (data reader') w'
      | Some (ReadFailed msg) =>
          mkRun OsExit1 (Println EmptyString msg) (data reader') w
      | None => readLoop E opts fuel' reader' (buf ++ line) w
      end
  end.

Definition main (E : Engine) (f : Flags) (stdin : Stdin) (w : World E)
  : Run (World E) :=
  match lookup (fnSet f) (strFn f) with
  | None => mkRun (Fatalf (strFn f)) EmptyString (data stdin) w
  | Some colorFn =>
      readLoop E (options f colorFn) (S (String.length (data stdin))) stdin
        EmptyString w
  end.

(** *** An engine to run the command on

    A stand-in for the engine: the image is the audio itself, an empty
    input is not a recognised container, an input that starts with "!" is an
    error of no known kind, and the state counts the calls. *)
Definition toyGenerate (w : nat) (audio : string) (opts : list waveform.OptionsFunc)
  : (string + waveform.error) * nat :=
  match audio with
  | EmptyString => (inr waveform.ErrFormat, S w)
  | String "!" _ => (inr (waveform.ErrOther "bad option"), S w)
  | _ => (inl audio, S w)
  end.

Definition toyEngine : Engine :=
  mkEngine nat string toyGenerate (fun img => inl img).

Definition eof (s : string) : Stdin := mkStdin s None.


(** *** Sample batches *)

Definition solid : waveform.ColorFunc :=
  waveform.SolidColor (color.mk 0 0 0 255).

Definition sampleOptions : list waveform.OptionsFunc :=
  options defaultFlags solid.

Definition requestA : Request.t := Request.mk "a" "waveform" ["QUJD"].
Definition requestB : Request.t := Request.mk "b" "noop" [].
Definition requestC : Request.t := Request.mk "c" "waveform" ["REVG"].

(** A parameter that is not base64, one that stops being base64 after a
    quantum, and one that decodes to an input the stand-in engine rejects
    with an error of no known kind. *)
Definition requestCorrupt : Request.t := Request.mk "x" "waveform" ["!!!"].
Definition requestPartial : Request.t := Request.mk "y" "waveform" ["QUJD!"].
Definition requestOdd : Request.t := Request.mk "z" "waveform" ["IQ=="].
Definition requestBare : Request.t := Request.mk "n" "waveform" [].

Definition responseA : Response.t := Response.mk "a" "SUkqAEFCQw==" "false".
Definition responseC : Response.t := Response.mk "c" "SUkqAERFRg==" "false".

Definition batchEmpty : string := lit "{'requests':[]}".

Definition batchABC : string :=
  lit "{'requests':[{'id':'a','function':'waveform','params':['QUJD']},
 {'id':'b','function':'noop','params':[]},
 {'id':'c','function':'waveform','params':['REVG']}]}".

Definition batchCorrupt : string :=
  lit "{'requests':[{'id':'a','function':'waveform','params':['QUJD']},
 {'id':'x','function':'waveform','params':['!!!']},
 {'id':'c','function':'waveform','params':['REVG']}]}".

Definition batchOdd : string :=
  lit "{'requests':[{'id':'a','function':'waveform','params':['QUJD']},
 {'id':'z','function':'waveform','params':['IQ==']},
 {'id':'c','function':'waveform','params':['REVG']}]}".

Definition batchBare : string :=
  lit "{'requests':[{'id':'a','function':'waveform','params':['QUJD']},
 {'id':'n','function':'waveform'},
 {'id':'c','function':'waveform','params':['REVG']}]}".

(** Well-formed JSON in which an id is a number and not a string. *)
Definition batchMistyped : string :=
  lit "{'requests':[{'id':7,'function':'waveform','params':['QUJD']}]}".

(** ** What the scanner admits *)

(** The characters that may follow a backslash, the "u" of a code point
    apart. *)
Definition simpleEscape (e : ascii) : bool :=
  match e with
  | "b"%char | "f"%char | "n"%char | "r"%char | "t"%char
  | "\"%char | "/"%char | "034"%char => true
  | _ => false
  end.

(** The bytes a string literal may hold as they are. *)
Definition ordinary (c : ascii) : bool :=
  negb (Ascii.eqb c "034") && negb (Ascii.eqb c "\") && (32 <=? byte c).

(** The strings the scanner admits between two quotes. *)
Inductive rawOK : string -> Prop :=
| rawOK_nil : rawOK EmptyString
| rawOK_char c s : ordinary c = true -> rawOK s -> rawOK (String c s)
| rawOK_esc e s : simpleEscape e = true -> rawOK s -> rawOK (String "\" (String e s))
| rawOK_u a b c d s :
    json.isHex a = true -> json.isHex b = true ->
    json.isHex c = true -> json.isHex d = true -> rawOK s ->
    rawOK (String "\" (String "u" (String a (String b (String c (String d s)))))).

(** [s[n:]], empty when [s] is shorter. *)
Fixpoint drop (n : nat) (s : string) : string :=
  match n, s with
  | O, _ => s
  | S n', String _ s' => drop n' s'
  | S _, EmptyString => EmptyString
  end.

(** The first [k] bytes of [s] are there and none is ASCII. *)
Fixpoint contPrefix (k : nat) (s : string) : Prop :=
  match k with
  | O => True
  | S k' =>
      match s with
      | EmptyString => False
      | String c s' => 128 <= byte c /\ contPrefix k' s'
      end
  end.

(** What holds of the tokens, of the states of the scanner and of the
    values it builds: every string literal is one the scanner admits. *)
Definition tokOK (t : json.token) : Prop :=
  match t with
  | json.TString raw => rawOK raw
  | _ => True
  end.

Fixpoint allHex (s : string) : bool :=
  match s with
  | EmptyString => true
  | String c s' => json.isHex c && allHex s'
  end.

Definition stateOK (st : json.lexState) : Prop :=
  match st with
  | json.stateInString acc => rawOK acc
  | json.stateInStringEsc acc =>
      exists acc0, acc = acc0 ++ "\" /\ rawOK acc0
  | json.stateInStringEscU todo acc =>
      exists acc0 hs,
        acc = acc0 ++ String "\" (String "u" hs) /\ rawOK acc0 /\
        allHex hs = true /\ (String.length hs + todo = 4)%nat /\ (1 <= todo)%nat
  | json.stateLiteral _ tok => tokOK tok
  | _ => True
  end.

#[warnings="-register-all"]
Inductive wellFormed : json.value -> Prop :=
| wellFormed_Null : wellFormed json.Null
| wellFormed_Bool b : wellFormed (json.Bool b)
| wellFormed_Number l : wellFormed (json.Number l)
| wellFormed_Str raw : rawOK raw -> wellFormed (json.Str raw)
| wellFormed_Array vs : Forall wellFormed vs -> wellFormed (json.Array vs)
| wellFormed_Object ms :
    Forall (fun m => rawOK (fst m) /\ wellFormed (snd m)) ms -> wellFormed (json.Object ms).

Definition memberOK (m : string * json.value) : Prop :=
  rawOK (fst m) /\ wellFormed (snd m).

Definition frameOK (f : json.frame) : Prop :=
  match f with
  | json.parseArrayValue done => Forall wellFormed done
  | json.parseObjectKey done => Forall memberOK done
  | json.parseObjectValue done key => Forall memberOK done /\ rawOK key
  end.

Definition expectOK (e : json.expect) : Prop :=
  match e with
  | json.EndTop v => wellFormed v
  | _ => True
  end.

(** The decoder has met no string it could not unquote. *)
Definition noPhaseError (e : option json.Error) : Prop := e <> Some json.PhaseError.

(** The 24 bits of three bytes, and the same bits as four sextets. *)
Definition word24 (a b c : Z) : Z := 65536 * a + 256 * b + c.

(** ** The standard reading of a hex colour

    What the colour notation means, written from its definition and not from
    the code: a hex digit stands for 0 to 15, six digits are three channels
    of two digits each, and three digits are the six digits in which each
    one is written twice. *)

Fixpoint position (c : ascii) (alphabet : string) : option Z :=
  match alphabet with
  | EmptyString => None
  | String x rest =>
      if Ascii.eqb c x then Some 0
      else option_map Z.succ (position c rest)
  end.

(** The written digits, in the order of their values; a letter counts the
    same in either case. *)
Definition hexDigit (c : ascii) : option Z :=
  match position c "0123456789abcdef" with
  | Some d => Some d
  | None => position c "0123456789ABCDEF"
  end.

Fixpoint hexDigits (s : string) : option (list Z) :=
  match s with
  | EmptyString => Some []
  | String c s' =>
      match hexDigit c, hexDigits s' with
      | Some d, Some ds => Some (d :: ds)
      | _, _ => None
      end
  end.

(** The number a list of hex digits writes, continuing from [n]. *)
Definition value16 (ds : list Z) (n : Z) : Z :=
  fold_left (fun a d => a * 16 + d) ds n.

Definition channel (hi lo : Z) : Z := 16 * hi + lo.

(** The colour of a string of hex digits, when it is three or six of
    them. *)
Definition hexColor (s : string) : option (Z * Z * Z) :=
  match hexDigits s with
  | Some [r; g; b] => Some (channel r r, channel g g, channel b b)
  | Some [r1; r0; g1; g0; b1; b0] =>
      Some (channel r1 r0, channel g1 g0, channel b1 b0)
  | _ => None
  end.

(** A single leading "#" is optional. *)
Definition stripHash (h : string) : string :=
  match h with
  | String "#" t => t
  | _ => h
  end.

(** ** The shape of the output *)

(** A request denotes render when its function is "waveform". *)
Definition isRender (r : Request.t) : bool :=
  String.eqb (Request.Function r) "waveform".

(** One output document: the envelope of a single response, and the newline
    that ends its line. *)
Definition document (resp : Response.t) : string :=
  json.Marshal (mkResponses [resp]) ++ String "010" EmptyString.

Fixpoint documents (resps : list Response.t) : string :=
  match resps with
  | [] => EmptyString
  | resp :: resps' => document resp ++ documents resps'
  end.

(** The requests of the batch: what [json.Unmarshal] leaves in the
    variable, whatever error it returns. *)
Definition decoded (stdin : Stdin) : list Request.t :=
  Requests_ (fst (json.Unmarshal (data stdin))).

(** A response answers a request: it carries the request's id and the
    success marker. *)
Definition answers (request : Request.t) (resp : Response.t) : Prop :=
  Response.Id resp = Request.Id request /\ Response.Error resp = "false".

(** The response written for a request whose image serialises to [buff]. *)
Definition responseFor (request : Request.t) (buff : string) : Response.t :=
  Response.mk (Request.Id request) (base64.EncodeToString buff) "false".

(** The strings the encoder copies unchanged: every byte is ASCII, printable
    and none of the escaped ones. *)
Fixpoint plain (s : string) : bool :=
  match s with
  | EmptyString => true
  | String c s' => json.htmlSafe (byte c) && plain s'
  end.

Fixpoint allNewlines (s : string) : bool :=
  match s with
  | EmptyString => true
  | String c s' => base64.isNewline c && allNewlines s'
  end.

(** How a rendering error ends the process. *)
Definition renderFailure (err : waveform.error) : Exit :=
  if known err then Fatal err else Panicked (PanicGenerate err).

(** The names of the five colour functions. *)
Definition fnNames : list string :=
  [fnChecker; fnFuzz; fnGradient; fnSolid; fnStripe].

(** ** The earlier command (old.go) *)

Module old.

(** How the earlier command ends. *)
Inductive Exit : Set :=
| Returned
| Fatal (err : string).

(** [ioutil.ReadAll(os.Stdin)]: the data read until end of file or an
    error, and the error; end of file is not one. *)
Definition ReadAll (stdin : Stdin) : string * option string :=
  (data stdin, failure stdin).

(** [main] of the earlier command: how it ends and what it has written to
    standard output. *)
Definition main (stdin : Stdin) : Exit * string :=
  let '(b, err) := ReadAll stdin in
  match err with
  | Some e => (Fatal e, EmptyString)
  | None =>
      let encodedString := base64.EncodeToString b in
      (Returned, Println EmptyString encodedString)
  end.

End old.

(** ** Helpers of the further properties *)

(** A request as the loop reads it: of its parameters only the first. *)
Definition firstParam (r : Request.t) : Request.t :=
  Request.mk (Request.Id r) (Request.Function r) (firstn 1 (Request.Params r)).

(** The flags with another alternate colour. *)
Definition withAlt (f : Flags) (alt : string) : Flags :=
  mkFlags (strBGColor f) (strFGColor f) alt (resolution f) (scaleX f)
          (scaleY f) (sharpness f) (strFn f).

(** A colour of 8 bits a channel, fully opaque. *)
Definition opaque (c : color.RGBA) : Prop :=
  0 <= color.R c < 256 /\ 0 <= color.G c < 256 /\ 0 <= color.B c < 256
  /\ color.A c = 255.

(** The number of newline bytes. *)
Fixpoint newlines (s : string) : nat :=
  match s with
  | EmptyString => O
  | String c s' => (if Ascii.eqb c "010" then 1 else 0) + newlines s'
  end.

Fixpoint allSpace (s : string) : bool :=
  match s with
  | EmptyString => true
  | String c s' => json.isSpace c && allSpace s'
  end.

(** [s] starts with [p]. *)
Definition startsWith (p s : string) : Prop := exists t, s = p ++ t.

(** A second stand-in for the engine, whose serialisation fails on one
    image. *)
Definition brittleEngine : Engine :=
  mkEngine nat string toyGenerate
    (fun img => if String.eqb img "DEF" then inr "short write" else inl img).

Definition batchNoop : string :=
  lit "{'requests':[{'id':'b','function':'noop','params':[]},
 {'id':'d','function':'Waveform','params':['QUJD']}]}".

(** An ASCII letter in upper case; any other byte as it is. *)
Definition upcase (c : ascii) : ascii :=
  if (97 <=? byte c) && (byte c <=? 122) then chr (byte c - 32) else c.

Fixpoint upper (s : string) : string :=
  match s with
  | EmptyString => EmptyString
  | String c s' => String (upcase c) (upper s')
  end.

(** The usual notation of a colour: "#" and two hex digits a channel. *)
Definition formatColor (r g b : Z) : string :=
  String "#" (String (json.hex (r / 16)) (String (json.hex (r mod 16))
    (String (json.hex (g / 16)) (String (json.hex (g mod 16))
      (String (json.hex (b / 16)) (String (json.hex (b mod 16)) EmptyString)))))).

(** No byte of [s] is JSON white space. *)
Fixpoint noSpace (s : string) : bool :=
  match s with
  | EmptyString => true
  | String c s' => negb (json.isSpace c) && noSpace s'
  end.

(** What holds of the scanner while it reads a literal name: the letters
    still awaited are letters. *)
Definition literalOK (st : json.lexState) : Prop :=
  match st with
  | json.stateLiteral rest _ => noSpace rest = true
  | _ => True
  end.

(** [s] without its carriage returns and line feeds. *)
Fixpoint unwrap (s : string) : string :=
  match s with
  | EmptyString => EmptyString
  | String c s' => if base64.isNewline c then unwrap s' else String c (unwrap s')
  end.

(** * Properties *)

(** ** hexToRGB *)

Section HexToRGB.

Local Open Scope Z_scope.

Lemma digit_hexDigit (c : ascii) :
  match hexDigit c with
  | Some d => strconv.digit (byte c) = Some d /\ 0 <= d < 16
  | None =>
      match strconv.digit (byte c) with
      | Some d => 16 <= d
      | None => True
      end
  end.
Proof.
  destruct c as [[] [] [] [] [] [] [] []]; vm_compute;
    repeat split; solve [exact I | reflexivity | discriminate].
Qed.

Lemma parseLoop_hex (s : string) :
  forall n, 0 <= n -> (n + 1) * 16 ^ len s <= 2 ^ 32 ->
  strconv.parseLoop 16 (2 ^ 60) (2 ^ 32 - 1) s n =
  match hexDigits s with
  | Some ds => (value16 ds n, None)
  | None => (0, Some strconv.ErrSyntax)
  end.
Proof.
  induction s as [|c s IH]; intros n Hn Hb; [reflexivity|].
  cbn [strconv.parseLoop hexDigits].
  pose proof (digit_hexDigit c) as Hc.
  destruct (hexDigit c) as [d|].
  - destruct Hc as [-> Hd].
    assert (Hlen : len (String c s) = len s + 1)
      by (unfold len; cbn [String.length]; lia).
    rewrite Hlen, Z.pow_add_r in Hb by (unfold len; lia).
    assert (Hpow : 1 <= 16 ^ len s)
      by (apply (Z.pow_le_mono_r 16 0); unfold len; lia).
    assert (Hn1 : (n * 16 + d + 1) * 16 ^ len s <= 2 ^ 32) by nia.
    assert (Hsmall : n * 16 + d + 1 <= 2 ^ 32) by nia.
    change (2 ^ 32) with 4294967296 in *.
    change (2 ^ 60) with 1152921504606846976 in *.
    destruct (Z.geb_spec d 16); [lia|].
    destruct (Z.geb_spec n 1152921504606846976); [lia|].
    unfold uint64.
    rewrite (Z.mod_small (n * 16)) by (change (2 ^ 64) with 18446744073709551616; lia).
    rewrite (Z.mod_small (n * 16 + d)) by (change (2 ^ 64) with 18446744073709551616; lia).
    destruct (Z.ltb_spec (n * 16 + d) (n * 16)); [lia|].
    destruct (Z.gtb_spec (n * 16 + d) (4294967296 - 1)); [lia|].
    cbn [orb].
    rewrite IH by lia.
    destruct (hexDigits s); reflexivity.
  - destruct (strconv.digit (byte c)) as [d|]; [|reflexivity].
    destruct (Z.geb_spec d 16); [reflexivity | lia].
Qed.

Lemma stripHash_eq (h : string) :
  stripHash h =
  match h with
  | String c t => if Ascii.eqb c "#" then t else h
  | EmptyString => h
  end.
Proof.
  destruct h as [|c t]; [reflexivity|].
  destruct c as [[] [] [] [] [] [] [] []]; reflexivity.
Qed.

Lemma ParseUint_16_32 (c : ascii) (s : string) :
  strconv.ParseUint (String c s) 16 32 =
  strconv.parseLoop 16 (2 ^ 60) (2 ^ 32 - 1) (String c s) 0.
Proof. reflexivity. Qed.

Lemma rgb_of_digits (r1 r0 g1 g0 b1 b0 : Z) :
  0 <= r1 < 16 -> 0 <= r0 < 16 -> 0 <= g1 < 16 -> 0 <= g0 < 16 ->
  0 <= b1 < 16 -> 0 <= b0 < 16 ->
  let rgb := value16 [r1; r0; g1; g0; b1; b0] 0 in
  (uint8 (Z.shiftr rgb 16), uint8 (Z.land (Z.shiftr rgb 8) 255),
   uint8 (Z.land rgb 255)) =
  (channel r1 r0, channel g1 g0, channel b1 b0).
Proof.
  intros H1 H2 H3 H4 H5 H6 rgb.
  assert (Hn : rgb = 1048576 * r1 + 65536 * r0 + 4096 * g1 + 256 * g0
                     + 16 * b1 + b0)
    by (subst rgb; unfold value16; cbn [fold_left]; lia).
  clearbody rgb.
  unfold uint8, channel.
  change 255 with (Z.ones 8).
  rewrite !Z.land_ones, !Z.shiftr_div_pow2 by lia.
  change (2 ^ 8) with 256; change (2 ^ 16) with 65536.
  assert (Hr : rgb / 65536 mod 256 = 16 * r1 + r0)
    by (Z.div_mod_to_equations; lia).
  assert (Hg : (rgb / 256 mod 256) mod 256 = 16 * g1 + g0)
    by (Z.div_mod_to_equations; lia).
  assert (Hb : (rgb mod 256) mod 256 = 16 * b1 + b0)
    by (Z.div_mod_to_equations; lia).
  rewrite Hr, Hg, Hb; reflexivity.
Qed.

Ltac split_digits :=
  repeat match goal with
         | |- context [hexDigit ?c] => destruct (hexDigit c)
         | |- context [hexDigits ?t] => is_var t; destruct (hexDigits t)
         end.

Ltac digit_bounds :=
  repeat match goal with
         | |- context [hexDigit ?c] =>
             let H := fresh "H" in
             pose proof (digit_hexDigit c) as H;
             destruct (hexDigit c);
             [destruct H as [_ H] | clear H]
         end.

(** C3. [hexToRGB] gives, for three or six hex digits after an optional
    single leading "#", exactly the colour those digits denote (a digit of
    the short form counting twice), and (0,0,0) for every other string. *)
Theorem hexToRGB_correct (h : string) :
  hexToRGB h =
  match hexColor (stripHash h) with
  | Some rgb => rgb
  | None => (0, 0, 0)
  end.
Proof.
  unfold hexToRGB; cbv zeta.
  rewrite stripHash_eq.
  set (h0 := match h with
             | EmptyString => h
             | String c t => if Ascii.eqb c "#" then t else h
             end).
  clearbody h0; clear h.
  destruct h0 as [|a [|b [|c [|d [|e [|f [|g t]]]]]]].
  - reflexivity.
  - unfold hexColor; cbn; split_digits; reflexivity.
  - unfold hexColor; cbn; split_digits; reflexivity.
  - change (len (String a (String b (String c EmptyString))) =? 3) with true.
    cbn [substring String.length Nat.sub append].
    change (len _ =? 6) with true; cbv iota.
    rewrite ParseUint_16_32, parseLoop_hex by (vm_compute; discriminate).
    unfold hexColor; cbn [hexDigits].
    digit_bounds; try reflexivity.
    rewrite <- (rgb_of_digits z z z0 z0 z1 z1) by assumption.
    reflexivity.
  - unfold hexColor; cbn; split_digits; reflexivity.
  - unfold hexColor; cbn; split_digits; reflexivity.
  - change (len _ =? 3) with false; cbv iota.
    change (len _ =? 6) with true; cbv iota.
    rewrite ParseUint_16_32, parseLoop_hex by (vm_compute; discriminate).
    unfold hexColor; cbn [hexDigits].
    digit_bounds; try reflexivity.
    rewrite <- (rgb_of_digits z z0 z1 z2 z3 z4) by assumption.
    reflexivity.
  - assert (H3 : (len (String a (String b (String c (String d (String e
                   (String f (String g t))))))) =? 3) = false)
      by (unfold len; cbn [String.length]; apply Z.eqb_neq; lia).
    assert (H6 : (len (String a (String b (String c (String d (String e
                   (String f (String g t))))))) =? 6) = false)
      by (unfold len; cbn [String.length]; apply Z.eqb_neq; lia).
    rewrite H3, H6.
    unfold hexColor; cbn [hexDigits]; split_digits; reflexivity.
Qed.

Example hexToRGB_full : hexToRGB "#1e90ff" = (30, 144, 255).
Proof. reflexivity. Qed.

Example hexToRGB_shorthand : hexToRGB "abc" = hexToRGB "aabbcc".
Proof. reflexivity. Qed.

Example hexToRGB_fallback :
  hexToRGB "#12345" = (0, 0, 0) /\ hexToRGB "##abc" = (0, 0, 0) /\
  hexToRGB "12345g" = (0, 0, 0) /\ hexToRGB "+12345" = (0, 0, 0).
Proof. repeat split. Qed.

End HexToRGB.

(** ** The rendering policy *)

Section Policy.

(** C7. When the alternate colour flag is empty the alternate colour is the
    foreground colour, whatever the foreground string is; each colour
    function that takes two colours is built from the foreground colour
    twice. *)
Theorem altColor_defaults_to_fgColor (f : Flags) :
  strAltColor f = "" ->
  altColor f = fgColor f /\
  fgColor f = rgba (strFGColor f) /\
  fnSet f =
    [ (fnChecker, waveform.CheckerColor (fgColor f) (fgColor f) 10);
      (fnFuzz, waveform.FuzzColor [fgColor f; fgColor f]);
      (fnGradient, waveform.GradientColor (fgColor f) (fgColor f));
      (fnSolid, waveform.SolidColor (fgColor f));
      (fnStripe, waveform.StripeColor [fgColor f; fgColor f]) ].
Proof.
  intros Halt.
  assert (Heq : altColor f = fgColor f)
    by (unfold altColor; rewrite Halt; reflexivity).
  unfold fnSet; rewrite Heq; repeat split.
Qed.

Lemma altColor_defaults_to_fgColor_witness :
  altColor (mkFlags "#FFFFFF" "#1e90ff" "" 1 1 1 1 fnStripe)
  = color.mk 30 144 255 255.
Proof.
  rewrite (proj1 (altColor_defaults_to_fgColor
                    (mkFlags "#FFFFFF" "#1e90ff" "" 1 1 1 1 fnStripe) eq_refl)).
  reflexivity.
Defined.

Lemma lookup_None {V : Type} (m : list (string * V)) (k : string) :
  ~ In k (map fst m) -> lookup m k = None.
Proof.
  induction m as [|[k' v] m IH]; intros Hk; [reflexivity|].
  cbn [lookup]. destruct (String.eqb_spec k k') as [->|_].
  - exfalso; apply Hk; left; reflexivity.
  - apply IH; intros Hin; apply Hk; right; exact Hin.
Qed.

Lemma lookup_Some {V : Type} (m : list (string * V)) (k : string) :
  In k (map fst m) -> exists v, lookup m k = Some v.
Proof.
  induction m as [|[k' v] m IH]; intros Hk; [destruct Hk|].
  cbn [lookup]. destruct (String.eqb_spec k k') as [->|Hne].
  - exists v; reflexivity.
  - destruct Hk as [Hk|Hk]; [symmetry in Hk; contradiction | exact (IH Hk)].
Qed.

(** C5. A function name outside the five known ones ends the process with
    the fatal log, before any byte of standard input is read and before any
    request is processed: nothing is written, nothing is read, and the
    engine is not called. *)
Theorem unknown_function_is_fatal
    (E : Engine) (f : Flags) (stdin : Stdin) (w : World E) :
  ~ In (strFn f) fnNames ->
  main E f stdin w = mkRun (Fatalf (strFn f)) EmptyString (data stdin) w.
Proof.
  intros Hfn. unfold main.
  rewrite (lookup_None (fnSet f) (strFn f)); [reflexivity | exact Hfn].
Qed.

Lemma unknown_function_is_fatal_witness :
  main toyEngine (mkFlags "#FFFFFF" "#000000" "" 1 1 1 1 "unknown")
       (eof (lit "{'requests':[]}")) 0%nat
  = mkRun (Fatalf "unknown") EmptyString (lit "{'requests':[]}") 0%nat.
Proof.
  apply (unknown_function_is_fatal toyEngine
           (mkFlags "#FFFFFF" "#000000" "" 1 1 1 1 "unknown")).
  cbn; intuition discriminate.
Defined.

End Policy.

(** ** Reading standard input *)

Section Reading.

Variable E : Engine.
Variable opts : list waveform.OptionsFunc.

Lemma splitAt_found (delim : ascii) (s line rest : string) :
  splitAt delim s = (line, Some rest) ->
  s = line ++ rest /\ (String.length rest < String.length s)%nat.
Proof.
  revert line rest; induction s as [|c s IH]; intros line rest; cbn [splitAt].
  - discriminate.
  - destruct (Ascii.eqb c delim).
    + intros [= <- <-]; split; [reflexivity | cbn; lia].
    + destruct (splitAt delim s) as [l r] eqn:Hs.
      intros [= <- ->]. destruct (IH l rest) as [-> Hlen]; [reflexivity|].
      split; [reflexivity | cbn; lia].
Qed.

Lemma splitAt_end (delim : ascii) (s line : string) :
  splitAt delim s = (line, None) -> s = line.
Proof.
  revert line; induction s as [|c s IH]; intros line; cbn [splitAt].
  - intros [= <-]; reflexivity.
  - destruct (Ascii.eqb c delim); [discriminate|].
    destruct (splitAt delim s) as [l r] eqn:Hs.
    intros [= <- ->]. rewrite (IH l); reflexivity.
Qed.

Lemma append_assoc (a b c : string) : (a ++ b) ++ c = a ++ (b ++ c).
Proof. induction a as [|x a IH]; cbn; [|rewrite IH]; reflexivity. Qed.

(** What the process does once standard input has been read to its end:
    the whole input is one document. *)
Definition atEnd (reader : Stdin) (input : string) (w : World E)
  : Run (World E) :=
  match failure reader with
  | None =>
      let '(e, out, w') :=
        processRequests E opts (Requests_ (fst (json.Unmarshal input)))
          EmptyString w in
      mkRun e out EmptyString w'
  | Some msg => mkRun OsExit1 (Println EmptyString msg) EmptyString w
  end.

(** With fuel for every line the loop reads the whole input, line by
    line, and never runs out. *)
Lemma readLoop_reads_all (fuel : nat) :
  forall (reader : Stdin) (buf : string) (w : World E),
  (String.length (data reader) < fuel)%nat ->
  readLoop E opts fuel reader buf w = atEnd reader (buf ++ data reader) w.
Proof.
  induction fuel as [|fuel IH]; intros reader buf w Hfuel; [lia|].
  cbn [readLoop]. unfold ReadString, atEnd.
  destruct (splitAt "010" (data reader)) as [line [rest|]] eqn:Hsplit.
  - apply splitAt_found in Hsplit as [Hdata Hlen].
    rewrite IH by (cbn [data]; lia).
    unfold atEnd; cbn [data failure].
    rewrite Hdata, append_assoc; reflexivity.
  - apply splitAt_end in Hsplit as <-.
    destruct (failure reader) as [msg|]; [reflexivity|].
    cbn [data].
    destruct (json.Unmarshal (buf ++ data reader)) as [requests err].
    reflexivity.
Qed.

End Reading.

(** [main], without the loop: the function name is looked up, the input is
    read to its end, and the requests decoded from it are processed. *)
Lemma main_unfold (E : Engine) (f : Flags) (stdin : Stdin) (w : World E) :
  main E f stdin w =
  match lookup (fnSet f) (strFn f) with
  | None => mkRun (Fatalf (strFn f)) EmptyString (data stdin) w
  | Some colorFn => atEnd E (options f colorFn) stdin (data stdin) w
  end.
Proof.
  unfold main. destruct (lookup (fnSet f) (strFn f)); [|reflexivity].
  rewrite readLoop_reads_all by lia. reflexivity.
Qed.

(** The model of the loop never runs out of fuel. *)
Lemma processRequests_fuel (E : Engine) (opts : list waveform.OptionsFunc)
    (rs : list Request.t) :
  forall (out : string) (w : World E),
  fst (fst (processRequests E opts rs out w)) <> OutOfFuel.
Proof.
  induction rs as [|r rs IH]; intros out w; cbn [processRequests].
  - discriminate.
  - unfold processRequest.
    destruct (String.eqb (Request.Function r) "waveform"); [|apply IH].
    destruct (Request.Params r) as [|p0 ps]; [discriminate|].
    destruct (base64.DecodeString p0) as [unbased err].
    destruct (Generate E w unbased opts) as [[img|e] w'].
    + destruct (tiff.Encode E img); [apply IH | discriminate].
    + destruct (known e); discriminate.
Qed.

Theorem main_terminates (E : Engine) (f : Flags) (stdin : Stdin) (w : World E) :
  exit (main E f stdin w) <> OutOfFuel.
Proof.
  rewrite main_unfold.
  destruct (lookup (fnSet f) (strFn f)) as [colorFn|]; [|discriminate].
  unfold atEnd. destruct (failure stdin); [discriminate|].
  pose proof (processRequests_fuel E (options f colorFn)
                (Requests_ (fst (json.Unmarshal (data stdin)))) EmptyString w) as H.
  destruct (processRequests E (options f colorFn) _ EmptyString w) as [[e out] w'].
  exact H.
Qed.

(** ** Decoding base64 that is corrupt *)

Section Base64.

Lemma skipNewlines_split (s : string) :
  forall si, exists nl,
    allNewlines nl = true /\ s = nl ++ fst (base64.skipNewlines s si).
Proof.
  induction s as [|c s IH]; intros si.
  - exists EmptyString; split; reflexivity.
  - cbn [base64.skipNewlines]. destruct (base64.isNewline c) eqn:Hc.
    + destruct (IH (si + 1)) as (nl & Hnl & Hs).
      exists (String c nl); cbn [allNewlines]; rewrite Hc, Hnl.
      split; [reflexivity|]. cbn [append]. rewrite <- Hs. reflexivity.
    + exists EmptyString; split; reflexivity.
Qed.

Lemma skipNewlines_all (nl : string) :
  forall si, allNewlines nl = true -> fst (base64.skipNewlines nl si) = EmptyString.
Proof.
  induction nl as [|c nl IH]; intros si H; [reflexivity|].
  cbn [allNewlines] in H. apply andb_true_iff in H as [Hc Hnl].
  cbn [base64.skipNewlines]. rewrite Hc. apply IH, Hnl.
Qed.

Lemma skipNewlines_pad (nl t : string) :
  forall si, allNewlines nl = true ->
  exists si', base64.skipNewlines (nl ++ String "=" t) si = (String "=" t, si').
Proof.
  induction nl as [|c nl IH]; intros si H.
  - exists si; reflexivity.
  - cbn [allNewlines] in H. apply andb_true_iff in H as [Hc Hnl].
    cbn [append base64.skipNewlines]. rewrite Hc. apply IH, Hnl.
Qed.

Lemma afterPadding_clean (dbuf : list Z) (nl : string) (si : Z) :
  allNewlines nl = true ->
  base64.afterPadding dbuf nl si = (base64.quantumBytes dbuf, None).
Proof.
  intros H. unfold base64.afterPadding.
  pose proof (skipNewlines_all nl si H) as Hs.
  destruct (base64.skipNewlines nl si) as [src si']; cbn [fst] in Hs; subst src.
  reflexivity.
Qed.

Lemma afterPadding_partial (dbuf : list Z) (src : string) (si : Z)
    (bytes : string) (e : base64.CorruptInputError) :
  base64.afterPadding dbuf src si = (bytes, Some e) ->
  exists nl rest, src = nl ++ rest /\ allNewlines nl = true
                  /\ bytes = base64.quantumBytes dbuf.
Proof.
  unfold base64.afterPadding. intros H.
  destruct (skipNewlines_split src si) as (nl & Hnl & Hs).
  destruct (base64.skipNewlines src si) as [src2 si2]; cbn [fst] in Hs.
  destruct src2; [discriminate|]. injection H as <- _.
  exists nl, (String a src2). auto.
Qed.

Lemma decode_partial (src : string) :
  forall si dbuf bytes e,
  base64.decode src si dbuf = (bytes, Some e) ->
  bytes = EmptyString \/
  exists q rest,
    src = q ++ rest /\ forall si', base64.decode q si' dbuf = (bytes, None).
Proof.
  induction src as [|c src IH]; intros si dbuf bytes e.
  - cbn [base64.decode]. destruct dbuf; intros [= <- _]; left; reflexivity.
  - cbn [base64.decode].
    destruct (negb (base64.decodeMap c =? 255)) eqn:Hvalid.
    + destruct (List.length (dbuf ++ [base64.decodeMap c]) =? 4)%nat eqn:Hfull.
      * destruct (base64.decode src (si + 1) []) as [tail err] eqn:Htail.
        intros [= <- ->].
        assert (Hq : exists q rest, src = q ++ rest /\
                       forall si', base64.decode q si' [] = (tail, None)).
        { destruct (IH _ _ _ _ Htail) as [->|Hq]; [|exact Hq].
          exists EmptyString, src; split; reflexivity. }
        destruct Hq as (q & rest & -> & Hq).
        right. exists (String c q), rest. split; [reflexivity|].
        intros si'. cbn [base64.decode]. rewrite Hvalid, Hfull, Hq. reflexivity.
      * intros H. destruct (IH _ _ _ _ H) as [->|(q & rest & -> & Hq)];
          [left; reflexivity|].
        right. exists (String c q), rest. split; [reflexivity|].
        intros si'. cbn [base64.decode]. rewrite Hvalid, Hfull. apply Hq.
    + destruct (base64.isNewline c) eqn:Hnl.
      * intros H. destruct (IH _ _ _ _ H) as [->|(q & rest & -> & Hq)];
          [left; reflexivity|].
        right. exists (String c q), rest. split; [reflexivity|].
        intros si'. cbn [base64.decode]. rewrite Hvalid, Hnl. apply Hq.
      * destruct (Ascii.eqb_spec c "=") as [->|Hpad]; cbn [negb];
          [|intros [= <- _]; left; reflexivity].
        destruct (List.length dbuf) as [|[|[|n]]] eqn:Hlen;
          try (intros [= <- _]; left; reflexivity).
        -- destruct (skipNewlines_split src (si + 1)) as (nl1 & Hnl1 & Hsrc).
           destruct (base64.skipNewlines src (si + 1)) as [src2 si2];
             cbn [fst] in Hsrc.
           destruct src2 as [|c2 src3]; [intros [= <- _]; left; reflexivity|].
           destruct (Ascii.eqb_spec c2 "=") as [->|Hc2]; cbn [negb];
             [|intros [= <- _]; left; reflexivity].
           intros H. apply afterPadding_partial in H as (nl2 & rest & -> & Hnl2 & ->).
           right. exists (String "=" (nl1 ++ String "=" nl2)), rest.
           split.
           { rewrite Hsrc. cbn [append]. f_equal.
             rewrite append_assoc. reflexivity. }
           intros si'. cbn [base64.decode negb]. rewrite Hlen.
           destruct (skipNewlines_pad nl1 nl2 (si' + 1) Hnl1) as [si3 ->].
           cbn [Ascii.eqb Bool.eqb negb].
           apply afterPadding_clean, Hnl2.
        -- intros H. apply afterPadding_partial in H as (nl & rest & -> & Hnl' & ->).
           right. exists (String "=" nl), rest. split; [reflexivity|].
           intros si'. cbn [base64.decode negb]. rewrite Hlen.
           apply afterPadding_clean, Hnl'.
Qed.

(** What [DecodeString] returns beside an error is what a leading part of
    the input decodes to without error. *)
Lemma DecodeString_partial (s bytes : string) (e : base64.CorruptInputError) :
  base64.DecodeString s = (bytes, Some e) ->
  exists q rest, s = q ++ rest /\ base64.DecodeString q = (bytes, None).
Proof.
  unfold base64.DecodeString. intros H.
  destruct (decode_partial s 0 [] bytes e H) as [->|(q & rest & Hs & Hq)].
  - exists EmptyString, s; split; reflexivity.
  - exists q, rest; split; [exact Hs | apply Hq].
Qed.

Lemma lor_shiftl_add (hi lo n : Z) :
  0 <= n -> 0 <= lo < 2 ^ n -> Z.lor (Z.shiftl hi n) lo = hi * 2 ^ n + lo.
Proof.
  intros Hn Hlo.
  assert (Hdisj : Z.land (Z.shiftl hi n) lo = 0).
  { apply Z.bits_inj'. intros m Hm. rewrite Z.land_spec, Z.bits_0.
    destruct (Z.lt_ge_cases m n) as [Hlt|Hge].
    - rewrite Z.shiftl_spec_low by lia. reflexivity.
    - rewrite <- (Z.mod_small lo (2 ^ n)) by lia.
      rewrite Z.mod_pow2_bits_high by lia. apply andb_false_r. }
  rewrite <- Z.lxor_lor by exact Hdisj.
  rewrite <- Z.add_nocarry_lxor by exact Hdisj.
  rewrite Z.shiftl_mul_pow2 by lia. reflexivity.
Qed.

Lemma byte_range (c : ascii) : 0 <= byte c < 256.
Proof.
  unfold byte. pose proof (N_ascii_bounded c) as H. lia.
Qed.

Lemma chr_byte (c : ascii) (z : Z) : z mod 256 = byte c -> chr z = c.
Proof.
  unfold chr, byte. intros ->. rewrite N2Z.id. apply ascii_N_embedding.
Qed.

Lemma decodeMap_encode (i : Z) :
  0 <= i < 64 ->
  base64.decodeMap (base64.encode i) = i /\
  base64.isNewline (base64.encode i) = false.
Proof.
  intros Hi. rewrite <- (Z2Nat.id i) by lia.
  assert (Hn : (Z.to_nat i < 64)%nat) by lia.
  generalize dependent (Z.to_nat i); clear i Hi; intros n Hn.
  do 64 (destruct n as [|n]; [split; reflexivity|]). lia.
Qed.

Lemma sextet_range (val shift : Z) : 0 <= Z.land (Z.shiftr val shift) 63 < 64.
Proof.
  change 63 with (Z.ones 6). rewrite Z.land_ones by lia.
  apply Z.mod_pos_bound; reflexivity.
Qed.

(** Reading one character of the alphabet. *)
Lemma decode_sextet (val shift : Z) (src : string) (si : Z) (dbuf : list Z) :
  base64.decode (String (base64.sextet val shift) src) si dbuf =
  let dbuf' := (dbuf ++ [Z.land (Z.shiftr val shift) 63])%list in
  if (List.length dbuf' =? 4)%nat then
    let '(rest, err) := base64.decode src (si + 1) [] in
    (base64.quantumBytes dbuf' ++ rest, err)
  else base64.decode src (si + 1) dbuf'.
Proof.
  cbn [base64.decode]. unfold base64.sextet.
  pose proof (sextet_range val shift) as Hr.
  destruct (decodeMap_encode _ Hr) as [-> _].
  destruct (Z.eqb_spec (Z.land (Z.shiftr val shift) 63) 255) as [H|_]; [lia|].
  reflexivity.
Qed.

Lemma lor_add (x lo n : Z) :
  0 <= n -> 0 <= lo < 2 ^ n -> x mod 2 ^ n = 0 -> Z.lor x lo = x + lo.
Proof.
  intros Hn Hlo Hx.
  assert (Hpos : 0 < 2 ^ n) by (apply Z.pow_pos_nonneg; lia).
  rewrite (Z.div_mod x (2 ^ n)) at 1 2 by lia. rewrite Hx, Z.add_0_r.
  rewrite (Z.mul_comm (2 ^ n)), <- Z.shiftl_mul_pow2 by lia.
  rewrite lor_shiftl_add by lia. rewrite Z.shiftl_mul_pow2 by lia. reflexivity.
Qed.

Lemma word24_lor (a b c : Z) :
  0 <= a < 256 -> 0 <= b < 256 -> 0 <= c < 256 ->
  Z.lor (Z.lor (Z.shiftl a 16) (Z.shiftl b 8)) c = word24 a b c.
Proof.
  intros Ha Hb Hc. unfold word24.
  rewrite !Z.shiftl_mul_pow2 by lia.
  change (2 ^ 16) with 65536; change (2 ^ 8) with 256.
  rewrite (lor_add (a * 65536) (b * 256) 16);
    [| lia | change (2 ^ 16) with 65536; lia
     | change (2 ^ 16) with 65536; apply Z.mod_mul; lia].
  rewrite (lor_add (a * 65536 + b * 256) c 8);
    [lia | lia | change (2 ^ 8) with 256; lia |].
  change (2 ^ 8) with 256.
  replace (a * 65536 + b * 256) with ((a * 256 + b) * 256) by lia.
  apply Z.mod_mul; lia.
Qed.

Lemma sextets_lor (s18 s12 s6 s0 : Z) :
  0 <= s18 < 64 -> 0 <= s12 < 64 -> 0 <= s6 < 64 -> 0 <= s0 < 64 ->
  Z.lor (Z.lor (Z.lor (Z.shiftl s18 18) (Z.shiftl s12 12)) (Z.shiftl s6 6)) s0
  = 262144 * s18 + 4096 * s12 + 64 * s6 + s0.
Proof.
  intros H18 H12 H6 H0.
  rewrite !Z.shiftl_mul_pow2 by lia.
  change (2 ^ 18) with 262144; change (2 ^ 12) with 4096; change (2 ^ 6) with 64.
  rewrite (lor_add (s18 * 262144) (s12 * 4096) 18);
    [| lia | change (2 ^ 18) with 262144; lia
     | change (2 ^ 18) with 262144; apply Z.mod_mul; lia].
  rewrite (lor_add (s18 * 262144 + s12 * 4096) (s6 * 64) 12);
    [| lia | change (2 ^ 12) with 4096; lia |].
  2: { change (2 ^ 12) with 4096.
       replace (s18 * 262144 + s12 * 4096) with ((s18 * 64 + s12) * 4096) by lia.
       apply Z.mod_mul; lia. }
  rewrite (lor_add (s18 * 262144 + s12 * 4096 + s6 * 64) s0 6);
    [lia | lia | change (2 ^ 6) with 64; lia |].
  change (2 ^ 6) with 64.
  replace (s18 * 262144 + s12 * 4096 + s6 * 64)
    with ((s18 * 4096 + s12 * 64 + s6) * 64) by lia.
  apply Z.mod_mul; lia.
Qed.

Lemma sextet_value (val shift : Z) :
  0 <= shift ->
  Z.land (Z.shiftr val shift) 63 = (val / 2 ^ shift) mod 64.
Proof.
  intros Hs. change 63 with (Z.ones 6).
  rewrite Z.land_ones, Z.shiftr_div_pow2 by lia. reflexivity.
Qed.

(** A whole quantum gives back its three bytes. *)
Lemma quantumBytes_full (a b c : ascii) :
  let val := Z.lor (Z.lor (Z.shiftl (byte a) 16) (Z.shiftl (byte b) 8)) (byte c) in
  base64.quantumBytes
    [Z.land (Z.shiftr val 18) 63; Z.land (Z.shiftr val 12) 63;
     Z.land (Z.shiftr val 6) 63; Z.land (Z.shiftr val 0) 63]
  = String a (String b (String c EmptyString)).
Proof.
  intros val.
  pose proof (byte_range a) as Ha. pose proof (byte_range b) as Hb.
  pose proof (byte_range c) as Hc.
  assert (Hval : val = word24 (byte a) (byte b) (byte c))
    by (apply word24_lor; assumption).
  unfold base64.quantumBytes. cbn [nth List.length].
  rewrite sextets_lor by apply sextet_range.
  rewrite !sextet_value by lia.
  rewrite !Z.shiftr_div_pow2 by lia.
  change (2 ^ 18) with 262144; change (2 ^ 12) with 4096; change (2 ^ 6) with 64;
    change (2 ^ 0) with 1; change (2 ^ 16) with 65536; change (2 ^ 8) with 256.
  clearbody val. unfold word24 in Hval.
  f_equal; [|f_equal; [|f_equal]]; apply chr_byte;
    Z.div_mod_to_equations; lia.
Qed.

Lemma quantumBytes_one (a : ascii) :
  let val := Z.shiftl (byte a) 16 in
  base64.quantumBytes
    [Z.land (Z.shiftr val 18) 63; Z.land (Z.shiftr val 12) 63]
  = String a EmptyString.
Proof.
  intros val.
  pose proof (byte_range a) as Ha.
  assert (Hval : val = 65536 * byte a)
    by (unfold val; rewrite Z.shiftl_mul_pow2 by lia; change (2 ^ 16) with 65536; lia).
  unfold base64.quantumBytes. cbn [nth List.length].
  change (Z.shiftl 0 6) with 0. rewrite !Z.lor_0_r.
  pose proof (sextets_lor (Z.land (Z.shiftr val 18) 63)
                (Z.land (Z.shiftr val 12) 63) 0 0
                (sextet_range _ _) (sextet_range _ _)) as Hs.
  change (Z.shiftl 0 6) with 0 in Hs. rewrite !Z.lor_0_r in Hs.
  rewrite Hs by lia.
  rewrite !sextet_value by lia.
  rewrite !Z.shiftr_div_pow2 by lia.
  change (2 ^ 18) with 262144; change (2 ^ 12) with 4096;
    change (2 ^ 16) with 65536.
  clearbody val.
  f_equal. apply chr_byte. Z.div_mod_to_equations; lia.
Qed.

Lemma quantumBytes_two (a b : ascii) :
  let val := Z.lor (Z.shiftl (byte a) 16) (Z.shiftl (byte b) 8) in
  base64.quantumBytes
    [Z.land (Z.shiftr val 18) 63; Z.land (Z.shiftr val 12) 63;
     Z.land (Z.shiftr val 6) 63]
  = String a (String b EmptyString).
Proof.
  intros val.
  pose proof (byte_range a) as Ha. pose proof (byte_range b) as Hb.
  assert (Hval : val = word24 (byte a) (byte b) 0).
  { unfold val. rewrite <- (word24_lor (byte a) (byte b) 0) by lia.
    rewrite Z.lor_0_r. reflexivity. }
  unfold base64.quantumBytes. cbn [nth List.length].
  rewrite Z.lor_0_r.
  pose proof (sextets_lor (Z.land (Z.shiftr val 18) 63)
                (Z.land (Z.shiftr val 12) 63) (Z.land (Z.shiftr val 6) 63) 0
                (sextet_range _ _) (sextet_range _ _) (sextet_range _ _)) as Hs.
  rewrite Z.lor_0_r in Hs. rewrite Hs by lia.
  rewrite !sextet_value by lia.
  rewrite !Z.shiftr_div_pow2 by lia.
  change (2 ^ 18) with 262144; change (2 ^ 12) with 4096; change (2 ^ 6) with 64;
    change (2 ^ 16) with 65536; change (2 ^ 8) with 256.
  clearbody val. unfold word24 in Hval.
  f_equal; [|f_equal]; apply chr_byte; Z.div_mod_to_equations; lia.
Qed.

Ltac step_sextet :=
  rewrite decode_sextet; cbv zeta; cbn [app List.length Nat.eqb].

Lemma decode_EncodeToString (n : nat) :
  forall src si, (String.length src <= n)%nat ->
  base64.decode (base64.EncodeToString src) si [] = (src, None).
Proof.
  induction n as [|n IH]; intros src si Hlen.
  - destruct src; [reflexivity | cbn in Hlen; lia].
  - destruct src as [|a [|b [|c rest]]]; cbn [base64.EncodeToString].
    + reflexivity.
    + do 2 step_sextet.
      cbn -[Z.land Z.shiftr Z.shiftl Z.lor base64.quantumBytes].
      rewrite (quantumBytes_one a). reflexivity.
    + do 3 step_sextet.
      cbn -[Z.land Z.shiftr Z.shiftl Z.lor base64.quantumBytes].
      rewrite (quantumBytes_two a b). reflexivity.
    + do 4 step_sextet.
      rewrite IH by (cbn [String.length] in Hlen; lia).
      rewrite (quantumBytes_full a b c). reflexivity.
Qed.

(** Decoding what was encoded gives the bytes back, without error. *)
Theorem DecodeString_EncodeToString (src : string) :
  base64.DecodeString (base64.EncodeToString src) = (src, None).
Proof.
  apply (decode_EncodeToString (String.length src)); lia.
Qed.

End Base64.

(** ** Decoding JSON strings *)

Section Json.

Lemma rawOK_app (a b : string) : rawOK a -> rawOK b -> rawOK (a ++ b).
Proof.
  intros Ha Hb; induction Ha; cbn [append]; try assumption;
    constructor; assumption.
Qed.

Lemma unquoteLoop_skip (k : nat) :
  forall s, json.unquoteLoop k s = json.unquoteLoop 0 (drop k s).
Proof.
  induction k as [|k IH]; intros s; [reflexivity|].
  destruct s as [|c s]; [reflexivity|]. cbn [json.unquoteLoop drop]. apply IH.
Qed.

Lemma dropBytes_drop (n : nat) : forall s, json.dropBytes n s = drop n s.
Proof.
  unfold json.dropBytes.
  induction n as [|n IH]; intros s.
  - cbn [drop]. rewrite Nat.sub_0_r. induction s as [|c s IHs]; [reflexivity|].
    cbn [String.length substring]. f_equal. 
    destruct s; [reflexivity|]. exact IHs.
  - destruct s as [|c s]; [reflexivity|]. cbn [String.length substring drop Nat.sub].
    apply IH.
Qed.

Lemma accept_lo (p0 : Z) : 128 <= fst (utf8.accept p0).
Proof.
  unfold utf8.accept.
  repeat match goal with |- context [if ?b then _ else _] => destruct b end;
    cbn; lia.
Qed.

Lemma inRange_lo (lo hi : Z) (c : ascii) :
  128 <= lo -> utf8.inRange lo hi c = true -> 128 <= byte c.
Proof.
  unfold utf8.inRange. intros Hlo H.
  apply andb_true_iff in H as [H _]. apply Z.leb_le in H. lia.
Qed.

Lemma DecodeRune_cont (c : ascii) (s : string) :
  (1 <= snd (utf8.DecodeRune (String c s)))%nat /\
  contPrefix (snd (utf8.DecodeRune (String c s)) - 1) s.
Proof.
  unfold utf8.DecodeRune.
  destruct (byte c <? 128); [cbn; auto|].
  destruct ((byte c <? 194) || (244 <? byte c)); [cbn; auto|].
  pose proof (accept_lo (byte c)) as Hlo.
  destruct (utf8.accept (byte c)) as [lo hi]; cbn [fst] in Hlo.
  destruct s as [|c1 s]; [cbn; auto|].
  destruct (utf8.inRange lo hi c1) eqn:H1; cbn [negb]; [|cbn; auto].
  apply (inRange_lo _ _ _ Hlo) in H1.
  destruct ((if byte c <? 224 then 2 else if byte c <? 240 then 3 else 4) =? 2);
    [cbn; auto|].
  destruct s as [|c2 s]; [cbn; auto|].
  destruct (utf8.inRange 128 191 c2) eqn:H2; cbn [negb]; [|cbn; auto].
  apply inRange_lo in H2; [|lia].
  destruct ((if byte c <? 224 then 2 else if byte c <? 240 then 3 else 4) =? 3);
    [cbn; auto|].
  destruct s as [|c3 s]; [cbn; auto|].
  destruct (utf8.inRange 128 191 c3) eqn:H3; cbn [negb]; [|cbn; auto].
  apply inRange_lo in H3; [|lia].
  cbn; auto.
Qed.

Lemma ordinary_not_backslash (c : ascii) :
  128 <= byte c -> c <> "\"%char.
Proof. intros H ->. vm_compute in H. apply H; reflexivity. Qed.

Lemma rawOK_tail (c : ascii) (s : string) :
  128 <= byte c -> rawOK (String c s) -> rawOK s.
Proof.
  intros Hc H. inversion H; subst; try assumption;
    exfalso; exact (ordinary_not_backslash _ Hc eq_refl).
Qed.

Lemma rawOK_drop_cont (k : nat) :
  forall s, rawOK s -> contPrefix k s -> rawOK (drop k s).
Proof.
  induction k as [|k IH]; intros s Hs Hk; [exact Hs|].
  destruct s as [|c s]; [destruct Hk|]. destruct Hk as [Hc Hk].
  cbn [drop]. apply IH; [exact (rawOK_tail c s Hc Hs) | exact Hk].
Qed.

Lemma drop_length (k : nat) :
  forall s, (String.length (drop k s) <= String.length s)%nat.
Proof.
  induction k as [|k IH]; intros s; [cbn; lia|].
  destruct s as [|c s]; [cbn; lia|]. cbn [drop String.length].
  specialize (IH s). lia.
Qed.

Lemma isHex_hexValue (c : ascii) :
  json.isHex c = true -> exists v, json.hexValue c = Some v /\ 0 <= v < 16.
Proof.
  unfold json.isHex, json.hexValue. intros H.
  destruct ((48 <=? byte c) && (byte c <=? 57)) eqn:H1.
  { apply andb_true_iff in H1 as [Ha Hb]. eexists; split; [reflexivity|]. lia. }
  destruct ((97 <=? byte c) && (byte c <=? 102)) eqn:H2.
  { apply andb_true_iff in H2 as [Ha Hb]. eexists; split; [reflexivity|]. lia. }
  cbn [orb] in H. rewrite H.
  apply andb_true_iff in H as [Ha Hb]. eexists; split; [reflexivity|]. lia.
Qed.

Lemma getu4_shape (s : string) :
  0 <= json.getu4 s ->
  exists a b c d t,
    s = String "\" (String "u" (String a (String b (String c (String d t))))).
Proof.
  unfold json.getu4.
  destruct s as [|x0 [|x1 [|a [|b [|c [|d t]]]]]];
    try (cbn; intros H; exfalso; revert H;
         repeat match goal with |- context [match ?x with _ => _ end] => destruct x end;
         cbn; lia).
  destruct (Ascii.eqb_spec x0 "\") as [->|H0].
  - destruct (Ascii.eqb_spec x1 "u") as [->|H1].
    + intros _. do 5 eexists. reflexivity.
    + intros H. exfalso. revert H.
      destruct x1 as [[] [] [] [] [] [] [] []]; try (cbn; lia).
      exfalso; apply H1; reflexivity.
  - intros H. exfalso. revert H.
    destruct x0 as [[] [] [] [] [] [] [] []]; try (cbn; lia).
    exfalso; apply H0; reflexivity.
Qed.

Lemma option_map_some {A B : Type} (f : A -> B) (o : option A) :
  o <> None -> option_map f o <> None.
Proof. destruct o; [discriminate | intros H; exfalso; apply H; reflexivity]. Qed.

Lemma utf16_valid_low (r1 r2 : Z) :
  (utf16.DecodeRune r1 r2 =? utf8.RuneError) = false -> 0 <= r2.
Proof.
  unfold utf16.DecodeRune.
  destruct ((55296 <=? r1) && (r1 <? 56320) && (56320 <=? r2) && (r2 <? 57344))
    eqn:H.
  - intros _. apply andb_true_iff in H as [H _].
    apply andb_true_iff in H as [_ H]. apply Z.leb_le in H. lia.
  - rewrite Z.eqb_refl. discriminate.
Qed.

Lemma rawOK_inv_u (a b c d : ascii) (t : string) :
  rawOK (String "\" (String "u" (String a (String b (String c (String d t)))))) ->
  rawOK t.
Proof.
  intros H. inversion H; subst.
  - discriminate.
  - discriminate.
  - assumption.
Qed.

Lemma unquoteLoop_total (n : nat) :
  forall s, (String.length s <= n)%nat -> rawOK s ->
  json.unquoteLoop 0 s <> None.
Proof.
  induction n as [|n IH]; intros s Hlen Hs.
  - destruct s; [discriminate | cbn in Hlen; lia].
  - inversion Hs as [|c s' Hc Hs'|e s' He Hs'|a b c d s' Ha Hb Hc Hd Hs']; subst.
    + discriminate.
    + cbn [String.length] in Hlen.
      unfold ordinary in Hc.
      apply andb_true_iff in Hc as [Hc H32]. apply andb_true_iff in Hc as [Hq Hb].
      apply negb_true_iff in Hq, Hb. apply Z.leb_le in H32.
      cbn [json.unquoteLoop]. rewrite Hb, Hq.
      destruct (Z.ltb_spec (byte c) 32) as [|_]; [lia|]. cbn [orb].
      destruct (Z.ltb_spec (byte c) 128) as [_|H128].
      * apply option_map_some, IH; [lia | exact Hs'].
      * pose proof (DecodeRune_cont c s') as [Hsz Hcont].
        destruct (utf8.DecodeRune (String c s')) as [rr size]; cbn [snd] in *.
        apply option_map_some. rewrite unquoteLoop_skip.
        apply IH; [pose proof (drop_length (size - 1) s'); lia|].
        apply rawOK_drop_cont; assumption.
    + cbn [String.length] in Hlen.
      assert (Hrest : json.unquoteLoop 1 (String e s') <> None)
        by (cbn [json.unquoteLoop]; apply IH; [lia | exact Hs']).
      cbn [json.unquoteLoop]. cbn [Ascii.eqb Bool.eqb andb].
      destruct e as [[] [] [] [] [] [] [] []]; try discriminate He;
        apply option_map_some; exact Hrest.
    + cbn [String.length] in Hlen.
      set (tail := String "u" (String a (String b (String c (String d s'))))).
      assert (H5 : json.unquoteLoop 5 tail <> None).
      { rewrite unquoteLoop_skip. cbn [drop tail]. apply IH; [lia | exact Hs']. }
      assert (Hu : 0 <= json.getu4 (String "\" tail)).
      { unfold json.getu4, tail.
        destruct (isHex_hexValue a Ha) as (va & -> & ?).
        destruct (isHex_hexValue b Hb) as (vb & -> & ?).
        destruct (isHex_hexValue c Hc) as (vc & -> & ?).
        destruct (isHex_hexValue d Hd) as (vd & -> & ?). lia. }
      change (json.unquoteLoop 0 (String "\" tail)) with
        (let rr := json.getu4 (String "\" tail) in
         if rr <? 0 then None
         else if utf16.IsSurrogate rr then
           let dec := utf16.DecodeRune rr
                        (json.getu4 (json.dropBytes 6 (String "\" tail))) in
           if negb (dec =? utf8.RuneError) then
             option_map (append (utf8.EncodeRune dec)) (json.unquoteLoop 11 tail)
           else
             option_map (append (utf8.EncodeRune utf8.RuneError))
                        (json.unquoteLoop 5 tail)
         else option_map (append (utf8.EncodeRune rr)) (json.unquoteLoop 5 tail)).
      cbv zeta.
      destruct (Z.ltb_spec (json.getu4 (String "\" tail)) 0) as [|_]; [lia|].
      destruct (utf16.IsSurrogate _); [|apply option_map_some, H5].
      destruct (utf16.DecodeRune _ _ =? utf8.RuneError) eqn:Hdec; cbn [negb];
        [apply option_map_some, H5|].
      apply utf16_valid_low in Hdec.
      rewrite dropBytes_drop in Hdec. cbn [drop tail] in Hdec.
      destruct (getu4_shape s' Hdec) as (a' & b' & c' & d' & t & ->).
      apply option_map_some. rewrite unquoteLoop_skip. cbn [drop tail].
      apply IH; [cbn [String.length] in *; lia|].
      exact (rawOK_inv_u a' b' c' d' t Hs').
Qed.

Lemma unquote_total (raw : string) : rawOK raw -> json.unquote raw <> None.
Proof. apply (unquoteLoop_total (String.length raw)); lia. Qed.

(** *** The scanner admits only such strings *)

Lemma beginToken_ok (c : ascii) (out out' : list json.token) (st' : json.lexState) :
  Forall tokOK out ->
  json.beginToken c out = Some (st', out') ->
  stateOK st' /\ Forall tokOK out'.
Proof.
  intros Hout. unfold json.beginToken.
  destruct (json.isSpace c); [intros [= <- <-]; split; [exact I | exact Hout]|].
  destruct c as [[] [] [] [] [] [] [] []];
    cbn; try discriminate;
    intros [= <- <-]; (split; [try exact I; constructor |]);
    try exact Hout; constructor; try exact I; exact Hout.
Qed.

Lemma snoc_app (a : string) (c : ascii) (b : string) :
  json.snoc a c ++ b = a ++ String c b.
Proof. unfold json.snoc. rewrite append_assoc. reflexivity. Qed.

Lemma rawOK_snoc_char (acc : string) (c : ascii) :
  rawOK acc -> ordinary c = true -> rawOK (json.snoc acc c).
Proof.
  intros Ha Hc. unfold json.snoc. apply rawOK_app; [exact Ha|].
  constructor; [exact Hc | constructor].
Qed.

Lemma lexStep_ok (st st' : json.lexState) (c : ascii)
    (out out' : list json.token) :
  stateOK st -> Forall tokOK out ->
  json.lexStep st c out = Some (st', out') ->
  stateOK st' /\ Forall tokOK out'.
Proof.
  intros Hst Hout.
  assert (Hnum : forall acc, json.endNumber acc c out = Some (st', out') ->
                             stateOK st' /\ Forall tokOK out').
  { intros acc. unfold json.endNumber. apply beginToken_ok.
    constructor; [exact I | exact Hout]. }
  destruct st as [|acc|acc|todo acc|acc|acc|acc|acc|acc|acc|acc|acc|rest tok];
    cbn [json.lexStep]; cbn [stateOK] in Hst.
  - apply beginToken_ok, Hout.
  - destruct (Ascii.eqb c "034") eqn:Hq.
    { intros [= <- <-]. split; [exact I|]. constructor; [exact Hst | exact Hout]. }
    destruct (Ascii.eqb c "\") eqn:Hb.
    { intros [= <- <-]. split; [|exact Hout].
      apply Ascii.eqb_eq in Hb as ->. exists acc; split; [reflexivity | exact Hst]. }
    destruct (Z.ltb_spec (byte c) 32) as [|H32]; [discriminate|].
    intros [= <- <-]. split; [|exact Hout].
    apply rawOK_snoc_char; [exact Hst|].
    unfold ordinary. rewrite Hq, Hb. cbn. apply Z.leb_le, H32.
  - destruct Hst as (acc0 & -> & H0).
    assert (Hesc : simpleEscape c = true ->
                   rawOK (json.snoc (acc0 ++ "\") c)).
    { intros Hc. unfold json.snoc. rewrite append_assoc. cbn [append].
      apply rawOK_app; [exact H0|]. apply rawOK_esc; [exact Hc | constructor]. }
    destruct c as [[] [] [] [] [] [] [] []]; try discriminate;
      intros [= <- <-]; (split; [|exact Hout]);
      try (apply Hesc; reflexivity).
    exists acc0, EmptyString. unfold json.snoc. rewrite append_assoc.
    repeat split; try reflexivity; [exact H0 | lia].
  - destruct Hst as (acc0 & hs & -> & H0 & Hhex & Hlen & Htodo).
    destruct (json.isHex c) eqn:Hc; [|discriminate].
    destruct todo as [|[|k]]; [lia | |].
    + intros [= <- <-]. split; [|exact Hout].
      unfold json.snoc. rewrite append_assoc. cbn [append].
      apply rawOK_app; [exact H0|].
      destruct hs as [|a [|b [|d [|x hs]]]]; cbn [String.length] in Hlen; try lia.
      cbn [allHex] in Hhex.
      apply andb_true_iff in Hhex as [Ha Hhex].
      apply andb_true_iff in Hhex as [Hb Hhex].
      apply andb_true_iff in Hhex as [Hd _].
      cbn [append]. apply rawOK_u; try assumption. constructor.
    + intros [= <- <-]. split; [|exact Hout].
      exists acc0, (hs ++ String c EmptyString).
      unfold json.snoc. rewrite append_assoc. cbn [append].
      repeat split; try exact H0; try lia.
      * clear - Hhex Hc. induction hs as [|x hs IH]; cbn [append allHex] in *.
        -- rewrite Hc; reflexivity.
        -- apply andb_true_iff in Hhex as [Hx Hhs]. rewrite Hx. exact (IH Hhs).
      * assert (Hl : forall a b, String.length (a ++ b)
                                 = (String.length a + String.length b)%nat).
        { clear. intros a b; induction a as [|x a IH]; cbn; [|rewrite IH]; reflexivity. }
        rewrite Hl. cbn [String.length]. lia.
  - destruct (Ascii.eqb c "0"); [intros [= <- <-]; split; [exact I | exact Hout]|].
    destruct (json.isDigit c); [|discriminate].
    intros [= <- <-]; split; [exact I | exact Hout].
  - destruct (json.isDigit c); [intros [= <- <-]; split; [exact I | exact Hout]|].
    destruct (Ascii.eqb c "."); [intros [= <- <-]; split; [exact I | exact Hout]|].
    destruct (Ascii.eqb c "e" || Ascii.eqb c "E");
      [intros [= <- <-]; split; [exact I | exact Hout]|].
    apply Hnum.
  - destruct (Ascii.eqb c "."); [intros [= <- <-]; split; [exact I | exact Hout]|].
    destruct (Ascii.eqb c "e" || Ascii.eqb c "E");
      [intros [= <- <-]; split; [exact I | exact Hout]|].
    apply Hnum.
  - destruct (json.isDigit c); [|discriminate].
    intros [= <- <-]; split; [exact I | exact Hout].
  - destruct (json.isDigit c); [intros [= <- <-]; split; [exact I | exact Hout]|].
    destruct (Ascii.eqb c "e" || Ascii.eqb c "E");
      [intros [= <- <-]; split; [exact I | exact Hout]|].
    apply Hnum.
  - destruct (Ascii.eqb c "+" || Ascii.eqb c "-");
      [intros [= <- <-]; split; [exact I | exact Hout]|].
    destruct (json.isDigit c); [|discriminate].
    intros [= <- <-]; split; [exact I | exact Hout].
  - destruct (json.isDigit c); [|discriminate].
    intros [= <- <-]; split; [exact I | exact Hout].
  - destruct (json.isDigit c); [intros [= <- <-]; split; [exact I | exact Hout]|].
    apply Hnum.
  - destruct rest as [|r [|r' rest]]; [discriminate | |];
      (destruct (Ascii.eqb c r); [|discriminate]).
    + intros [= <- <-]. split; [exact I|].
      constructor; [exact Hst | exact Hout].
    + intros [= <- <-]. split; [exact Hst | exact Hout].
Qed.

Lemma lexLoop_ok (data : string) :
  forall st out toks,
  stateOK st -> Forall tokOK out ->
  json.lexLoop data st out = Some toks -> Forall tokOK toks.
Proof.
  induction data as [|c data IH]; intros st out toks Hst Hout; cbn [json.lexLoop].
  - unfold json.lexEnd. destruct st; try discriminate;
      intros [= <-]; try exact Hout; constructor; try exact I; exact Hout.
  - destruct (json.lexStep st c out) as [[st' out']|] eqn:Hstep; [|discriminate].
    destruct (lexStep_ok _ _ _ _ _ Hst Hout Hstep) as [Hst' Hout'].
    apply IH; assumption.
Qed.

Lemma lex_ok (data : string) (toks : list json.token) :
  json.lex data = Some toks -> Forall tokOK toks.
Proof.
  unfold json.lex.
  destruct (json.lexLoop data json.stateBegin []) as [out|] eqn:H; [|discriminate].
  intros [= <-]. apply Forall_rev.
  exact (lexLoop_ok data json.stateBegin [] out I (Forall_nil _) H).
Qed.

(** *** Values built from such tokens *)

Lemma complete_ok (v : json.value) (stack stack' : list json.frame)
    (e' : json.expect) :
  wellFormed v -> Forall frameOK stack ->
  json.complete v stack = Some (e', stack') ->
  expectOK e' /\ Forall frameOK stack'.
Proof.
  intros Hv Hstack. unfold json.complete.
  destruct stack as [|[done|done|done key] stack]; try discriminate;
    intros [= <- <-].
  - split; [exact Hv | constructor].
  - inversion Hstack; subst. split; [exact I|].
    constructor; [|assumption]. constructor; assumption.
  - inversion Hstack as [|? ? Hf Hrest]; subst. destruct Hf as [Hd Hk].
    split; [exact I|].
    constructor; [|assumption]. constructor; [split; assumption | assumption].
Qed.

Lemma push_ok (f : json.frame) (e e' : json.expect)
    (stack stack' : list json.frame) :
  frameOK f -> Forall frameOK stack ->
  json.push f e stack = Some (e', stack') ->
  (e' = e) /\ Forall frameOK stack'.
Proof.
  intros Hf Hstack. unfold json.push.
  destruct (_ <=? _); [|discriminate].
  intros [= <- <-]. split; [reflexivity | constructor; assumption].
Qed.

Lemma beginValue_ok (t : json.token) (stack stack' : list json.frame)
    (e' : json.expect) :
  tokOK t -> Forall frameOK stack ->
  json.beginValue t stack = Some (e', stack') ->
  expectOK e' /\ Forall frameOK stack'.
Proof.
  intros Ht Hstack. unfold json.beginValue.
  destruct t; try discriminate;
    try (apply complete_ok; [constructor; try exact Ht | exact Hstack]).
  - intros H. apply push_ok in H as [-> H]; [split; [exact I | exact H] | | exact Hstack].
    constructor.
  - intros H. apply push_ok in H as [-> H]; [split; [exact I | exact H] | | exact Hstack].
    constructor.
Qed.

Lemma parseStep_ok (e e' : json.expect) (stack stack' : list json.frame)
    (t : json.token) :
  tokOK t -> Forall frameOK stack ->
  json.parseStep e stack t = Some (e', stack') ->
  expectOK e' /\ Forall frameOK stack'.
Proof.
  intros Ht Hstack.
  assert (Hend : forall done rest,
             Forall frameOK (json.parseArrayValue done :: rest) ->
             json.complete (json.Array (rev done)) rest = Some (e', stack') ->
             expectOK e' /\ Forall frameOK stack').
  { intros done rest H. inversion H; subst.
    apply complete_ok; [|assumption]. constructor. apply Forall_rev. assumption. }
  assert (Hobj : forall done rest,
             Forall frameOK (json.parseObjectKey done :: rest) ->
             json.complete (json.Object (rev done)) rest = Some (e', stack') ->
             expectOK e' /\ Forall frameOK stack').
  { intros done rest H. inversion H; subst.
    apply complete_ok; [|assumption]. constructor. apply Forall_rev. assumption. }
  unfold json.parseStep.
  destruct e; destruct t; destruct stack as [|[done|done|done key] stack];
    try discriminate;
    try (apply beginValue_ok; assumption);
    try (apply Hend; assumption);
    try (apply Hobj; assumption);
    try (intros [= <- <-]; split; [exact I | exact Hstack]).
  all: intros [= <- <-]; split; [exact I|];
       inversion Hstack; subst; constructor; [|assumption];
       split; assumption.
Qed.

Lemma parseLoop_ok (ts : list json.token) :
  forall e stack v,
  Forall tokOK ts -> expectOK e -> Forall frameOK stack ->
  json.parseLoop ts e stack = Some v -> wellFormed v.
Proof.
  induction ts as [|t ts IH]; intros e stack v Hts He Hstack; cbn [json.parseLoop].
  - destruct e; try discriminate. intros [= <-]. exact He.
  - destruct (json.parseStep e stack t) as [[e' stack']|] eqn:Hstep; [|discriminate].
    inversion Hts; subst.
    destruct (parseStep_ok _ _ _ _ _ H1 Hstack Hstep) as [He' Hstack'].
    apply IH; assumption.
Qed.

Lemma scan_ok (data : string) (v : json.value) :
  json.scan data = Some v -> wellFormed v.
Proof.
  unfold json.scan.
  destruct (json.lex data) as [ts|] eqn:Hlex; [|discriminate].
  apply parseLoop_ok; [exact (lex_ok data ts Hlex) | exact I | constructor].
Qed.

(** *** No phase error *)

Lemma saveError_noPhaseError (saved new : option json.Error) :
  noPhaseError saved -> noPhaseError new -> noPhaseError (json.saveError saved new).
Proof. unfold json.saveError; destruct saved; auto. Qed.

Lemma mismatch_noPhaseError {T : Type} (target : T) (v : json.value) (ty : string) :
  noPhaseError (snd (json.mismatch target v ty)).
Proof. destruct v; cbn; discriminate. Qed.

Lemma decodeString_noPhaseError (target : string) (v : json.value) :
  wellFormed v -> noPhaseError (snd (json.decodeString target v)).
Proof.
  intros Hv. destruct v; try apply mismatch_noPhaseError.
  inversion Hv; subst. cbn [json.decodeString].
  pose proof (unquote_total raw H0) as Hu.
  destruct (json.unquote raw); [discriminate | contradiction].
Qed.

Lemma decodeElems_noPhaseError {T : Type} (zero : T)
    (decodeElem : T -> json.value -> T * option json.Error) (vs : list json.value) :
  (forall t v, wellFormed v -> noPhaseError (snd (decodeElem t v))) ->
  Forall wellFormed vs ->
  forall pool, noPhaseError (snd (json.decodeElems zero decodeElem vs pool)).
Proof.
  intros Hel Hvs. induction Hvs as [|v vs Hv Hvs IH]; intros pool;
    cbn [json.decodeElems]; [discriminate|].
  destruct pool as [|x pool'].
  - specialize (Hel zero v Hv). destruct (decodeElem zero v) as [y e].
    specialize (IH []).
    destruct (json.decodeElems zero decodeElem vs []) as [[xs rest] es].
    cbn [snd] in *. apply saveError_noPhaseError; assumption.
  - specialize (Hel x v Hv). destruct (decodeElem x v) as [y e].
    specialize (IH pool').
    destruct (json.decodeElems zero decodeElem vs pool') as [[xs rest] es].
    cbn [snd] in *. apply saveError_noPhaseError; assumption.
Qed.

Lemma decodeSlice_noPhaseError {T : Type} (zero : T) (ty : string)
    (decodeElem : T -> json.value -> T * option json.Error)
    (target : json.slice T) (v : json.value) :
  (forall t x, wellFormed x -> noPhaseError (snd (decodeElem t x))) ->
  wellFormed v -> noPhaseError (snd (json.decodeSlice zero ty decodeElem target v)).
Proof.
  intros Hel Hv. destruct v; try apply mismatch_noPhaseError; try (cbn; discriminate).
  inversion Hv; subst. cbn [json.decodeSlice].
  destruct elems as [|v vs]; [cbn; discriminate|].
  pose proof (decodeElems_noPhaseError zero decodeElem (v :: vs) Hel H0
                (json.live target ++ json.spare target)%list) as H.
  destruct (json.decodeElems zero decodeElem (v :: vs) _) as [[xs rest] e].
  exact H.
Qed.

Lemma fold_noPhaseError {A : Type}
    (step : A * option json.Error -> string * json.value -> A * option json.Error)
    (ms : list (string * json.value)) :
  (forall acc m, noPhaseError (snd acc) -> memberOK m -> noPhaseError (snd (step acc m))) ->
  Forall memberOK ms ->
  forall acc, noPhaseError (snd acc) -> noPhaseError (snd (fold_left step ms acc)).
Proof.
  intros Hstep Hms. induction Hms as [|m ms Hm Hms IH]; intros acc Hacc;
    cbn [fold_left]; [exact Hacc|].
  apply IH, Hstep; assumption.
Qed.

Lemma decodeRequestField_noPhaseError (acc : json.request * option json.Error)
    (m : string * json.value) :
  noPhaseError (snd acc) -> memberOK m -> noPhaseError (snd (json.decodeRequestField acc m)).
Proof.
  destruct acc as [r saved], m as [rawkey v]. intros Hacc [Hk Hv].
  cbn [fst snd] in *. unfold json.decodeRequestField.
  pose proof (unquote_total rawkey Hk) as Hu.
  destruct (json.unquote rawkey) as [key|]; [|contradiction].
  destruct (json.findField json.requestFields key) as [[|[|n]]|].
  - pose proof (decodeString_noPhaseError (json.r_Id r) v Hv) as H.
    destruct (json.decodeString (json.r_Id r) v). apply saveError_noPhaseError; assumption.
  - pose proof (decodeString_noPhaseError (json.r_Function r) v Hv) as H.
    destruct (json.decodeString (json.r_Function r) v).
    apply saveError_noPhaseError; assumption.
  - pose proof (decodeSlice_noPhaseError "" "[]string" json.decodeString
                  (json.r_Params r) v decodeString_noPhaseError Hv) as H.
    destruct (json.decodeSlice "" "[]string" json.decodeString (json.r_Params r) v).
    apply saveError_noPhaseError; assumption.
  - exact Hacc.
Qed.

Lemma decodeRequest_noPhaseError (target : json.request) (v : json.value) :
  wellFormed v -> noPhaseError (snd (json.decodeRequest target v)).
Proof.
  intros Hv. destruct v; try apply mismatch_noPhaseError.
  inversion Hv; subst. cbn [json.decodeRequest].
  apply fold_noPhaseError; [apply decodeRequestField_noPhaseError | assumption | discriminate].
Qed.

Lemma decodeRequestsField_noPhaseError
    (acc : json.slice json.request * option json.Error)
    (m : string * json.value) :
  noPhaseError (snd acc) -> memberOK m -> noPhaseError (snd (json.decodeRequestsField acc m)).
Proof.
  destruct acc as [rs saved], m as [rawkey v]. intros Hacc [Hk Hv].
  cbn [fst snd] in *. unfold json.decodeRequestsField.
  pose proof (unquote_total rawkey Hk) as Hu.
  destruct (json.unquote rawkey) as [key|]; [|contradiction].
  destruct (json.findField ["requests"] key); [|exact Hacc].
  pose proof (decodeSlice_noPhaseError json.zeroRequest "[]main.Request"
                json.decodeRequest rs v decodeRequest_noPhaseError Hv) as H.
  destruct (json.decodeSlice json.zeroRequest "[]main.Request"
              json.decodeRequest rs v).
  apply saveError_noPhaseError; assumption.
Qed.

Lemma decodeRequests_noPhaseError (target : json.slice json.request) (v : json.value) :
  wellFormed v -> noPhaseError (snd (json.decodeRequests target v)).
Proof.
  intros Hv. destruct v; try apply mismatch_noPhaseError.
  inversion Hv; subst. cbn [json.decodeRequests].
  apply fold_noPhaseError; [apply decodeRequestsField_noPhaseError | assumption | discriminate].
Qed.

(** [Unmarshal] never meets a string it cannot unquote: the scanner has
    admitted every string literal of the document before any is decoded. *)
Theorem Unmarshal_no_phase_error (data : string) :
  snd (json.Unmarshal data) <> Some json.PhaseError.
Proof.
  unfold json.Unmarshal.
  destruct (json.scan data) as [v|] eqn:Hscan; [|discriminate].
  pose proof (decodeRequests_noPhaseError json.nilSlice v (scan_ok data v Hscan)) as H.
  destruct (json.decodeRequests json.nilSlice v) as [rs e]. exact H.
Qed.

End Json.

(** ** The loop over the requests *)

Section Batch.

Variable E : Engine.
Variable opts : list waveform.OptionsFunc.

Lemma processRequest_not_returned (r : Request.t) (out out' : string)
    (w w' : World E) :
  processRequest E opts r out w <> Stop Returned out' w'.
Proof.
  unfold processRequest.
  destruct (String.eqb (Request.Function r) "waveform"); [|discriminate].
  destruct (Request.Params r) as [|p0 ps]; [discriminate|].
  destruct (base64.DecodeString p0) as [unbased err].
  destruct (Generate E w unbased opts) as [[img|e] w1].
  - destruct (tiff.Encode E img); discriminate.
  - destruct (known e); discriminate.
Qed.

(** A batch is processed front to back: what follows a prefix is processed
    from where the prefix left off, unless the prefix ended the process. *)
Lemma processRequests_app (pre rest : list Request.t) :
  forall (out : string) (w : World E),
  processRequests E opts (pre ++ rest)%list out w =
  match processRequests E opts pre out w with
  | (Returned, out1, w1) => processRequests E opts rest out1 w1
  | stopped => stopped
  end.
Proof.
  induction pre as [|r pre IH]; intros out w; [reflexivity|].
  cbn [app processRequests].
  destruct (processRequest E opts r out w) as [out1 w1|e out1 w1] eqn:Hp.
  - apply IH.
  - destruct e; try reflexivity.
    exfalso; exact (processRequest_not_returned r out out1 w w1 Hp).
Qed.

Lemma processRequests_reached (pre rest : list Request.t) (out out1 : string)
    (w w1 : World E) :
  processRequests E opts pre out w = (Returned, out1, w1) ->
  processRequests E opts (pre ++ rest)%list out w =
  processRequests E opts rest out1 w1.
Proof. intros H; rewrite processRequests_app, H; reflexivity. Qed.

Lemma not_render (r : Request.t) :
  Request.Function r <> "waveform" -> isRender r = false.
Proof.
  intros H; unfold isRender.
  destruct (String.eqb_spec (Request.Function r) "waveform"); [contradiction | reflexivity].
Qed.

(** C8. A request whose function is not "waveform" is skipped entirely:
    its iteration writes nothing, calls nothing and stops nothing, so the
    batch runs exactly as it would without that request. *)
Theorem other_functions_are_skipped
    (request : Request.t) (pre post : list Request.t)
    (out : string) (w : World E) :
  Request.Function request <> "waveform" ->
  processRequest E opts request out w = Continue out w /\
  processRequests E opts (pre ++ request :: post)%list out w =
  processRequests E opts (pre ++ post)%list out w.
Proof.
  intros Hfn.
  assert (Hskip : forall o v, processRequest E opts request o v = Continue o v).
  { intros o v; unfold processRequest.
    apply not_render in Hfn; unfold isRender in Hfn; rewrite Hfn; reflexivity. }
  split; [apply Hskip|].
  rewrite !processRequests_app.
  destruct (processRequests E opts pre out w) as [[e out1] w1].
  destruct e; try reflexivity.
  cbn [processRequests]; rewrite Hskip; reflexivity.
Qed.

(** The whole batch, accordingly, runs as its render requests alone. *)
Lemma processRequests_filter (rs : list Request.t) :
  forall (out : string) (w : World E),
  processRequests E opts rs out w =
  processRequests E opts (filter isRender rs) out w.
Proof.
  induction rs as [|r rs IH]; intros out w; [reflexivity|].
  cbn [filter]. destruct (isRender r) eqn:Hr.
  - cbn [processRequests].
    destruct (processRequest E opts r out w); [apply IH | reflexivity].
  - cbn [processRequests]. unfold processRequest.
    unfold isRender in Hr; rewrite Hr. apply IH.
Qed.

(** C10. [Params[0]] is read without a check of the length: a request whose
    function is "waveform" and whose params are empty, once the loop reaches
    it, panics with an index out of range and nothing more is written; and
    when every render request of a batch has a parameter, no run of the
    batch panics on an index. *)
Theorem empty_params_panic (rs : list Request.t) (out : string) (w : World E) :
  (forall (pre post : list Request.t) (request : Request.t)
          (out1 : string) (w1 : World E),
      rs = (pre ++ request :: post)%list ->
      processRequests E opts pre out w = (Returned, out1, w1) ->
      Request.Function request = "waveform" ->
      Request.Params request = [] ->
      processRequests E opts rs out w = (Panicked (PanicIndex 0 0), out1, w1))
  /\
  ((forall request, In request rs ->
      Request.Function request = "waveform" -> Request.Params request <> []) ->
   forall index length,
     fst (fst (processRequests E opts rs out w)) <> Panicked (PanicIndex index length)).
Proof.
  split.
  - intros pre post request out1 w1 -> Hpre Hfn Hparams.
    rewrite (processRequests_reached _ _ _ _ _ _ Hpre).
    cbn [processRequests]. unfold processRequest.
    rewrite Hfn, Hparams. reflexivity.
  - revert out w. induction rs as [|r rs' IH]; intros out w Hsafe index length.
    + discriminate.
    + cbn [processRequests]. unfold processRequest.
      destruct (String.eqb_spec (Request.Function r) "waveform") as [Hfn|Hfn].
      * pose proof (Hsafe r (or_introl eq_refl) Hfn) as Hp.
        destruct (Request.Params r) as [|p0 ps]; [contradiction|].
        destruct (base64.DecodeString p0) as [unbased err].
        destruct (Generate E w unbased opts) as [[img|e] w1].
        -- destruct (tiff.Encode E img).
           ++ apply IH. intros q Hq; apply Hsafe; right; exact Hq.
           ++ discriminate.
        -- destruct (known e); discriminate.
      * apply IH. intros q Hq; apply Hsafe; right; exact Hq.
Qed.

Lemma append_nil_r (a : string) : a ++ EmptyString = a.
Proof. induction a as [|x a IH]; cbn; [|rewrite IH]; reflexivity. Qed.

Lemma Println_document (out : string) (resp : Response.t) :
  Println out (json.Marshal (mkResponses [resp])) = out ++ document resp.
Proof. reflexivity. Qed.

(** Every run of the loop writes a sequence of single-response documents,
    one for each render request it got through, in the order of the
    requests; a run that returns got through all of them. *)
Lemma processRequests_documents (rs : list Request.t) :
  forall (out : string) (w : World E),
  exists resps : list Response.t,
    snd (fst (processRequests E opts rs out w)) = out ++ documents resps /\
    Forall2 answers (firstn (List.length resps) (filter isRender rs)) resps /\
    (List.length resps <= List.length (filter isRender rs))%nat /\
    (fst (fst (processRequests E opts rs out w)) = Returned ->
     List.length resps = List.length (filter isRender rs)).
Proof.
  induction rs as [|r rs IH]; intros out w.
  - exists []; cbn. rewrite append_nil_r. repeat split; constructor.
  - cbn [processRequests filter]. unfold processRequest.
    destruct (isRender r) eqn:Hr; unfold isRender in Hr; rewrite Hr;
      [|apply IH].
    destruct (Request.Params r) as [|p0 ps].
    { exists []; cbn. rewrite append_nil_r.
      repeat split; [constructor | lia | discriminate]. }
    destruct (base64.DecodeString p0) as [unbased err].
    destruct (Generate E w unbased opts) as [[img|e] w1].
    + destruct (tiff.Encode E img) as [buff|terr].
      * rewrite Println_document.
        destruct (IH (out ++ document (Response.mk (Request.Id r)
                                         (base64.EncodeToString buff) "false")) w1)
          as (resps & Hout & Hall & Hle & Hret).
        exists (Response.mk (Request.Id r) (base64.EncodeToString buff) "false" :: resps).
        rewrite Hout. cbn [documents List.length firstn].
        rewrite append_assoc.
        repeat split.
        -- constructor; [split; reflexivity | exact Hall].
        -- cbn [List.length]; lia.
        -- intros Hx; cbn [List.length]; rewrite (Hret Hx); reflexivity.
      * exists []; cbn. rewrite append_nil_r.
        repeat split; [constructor | lia | discriminate].
    + exists []. destruct (known e); cbn; rewrite append_nil_r;
        repeat split; solve [constructor | lia | discriminate].
Qed.

(** An iteration that ends the process is that of a render request, and it
    has written nothing. *)
Lemma processRequest_stop (r : Request.t) (out out' : string)
    (w w' : World E) (e : Exit) :
  processRequest E opts r out w = Stop e out' w' ->
  isRender r = true /\ out' = out.
Proof.
  unfold processRequest, isRender.
  destruct (String.eqb (Request.Function r) "waveform"); [|discriminate].
  destruct (Request.Params r) as [|p0 ps]; [intros [= _ <- _]; auto|].
  destruct (base64.DecodeString p0) as [unbased err].
  destruct (Generate E w unbased opts) as [[img|e0] w1].
  - destruct (tiff.Encode E img); [discriminate | intros [= _ <- _]; auto].
  - destruct (known e0); intros [= _ <- _]; auto.
Qed.

(** A run of the loop that does not return has stopped at a render request:
    the requests before it were processed to the end, and their output is
    the output of the run. *)
Lemma processRequests_stopped (rs : list Request.t) :
  forall (out : string) (w : World E) (e : Exit) (out' : string) (w' : World E),
  processRequests E opts rs out w = (e, out', w') ->
  e <> Returned ->
  exists (pre post : list Request.t) (request : Request.t) (w1 : World E),
    rs = (pre ++ request :: post)%list /\
    isRender request = true /\
    processRequests E opts pre out w = (Returned, out', w1) /\
    processRequest E opts request out' w1 = Stop e out' w'.
Proof.
  induction rs as [|r rs IH]; intros out w e out' w' Hrun Hne.
  - cbn in Hrun. injection Hrun as <- _ _. contradiction.
  - cbn [processRequests] in Hrun.
    destruct (processRequest E opts r out w) as [out1 w1|e1 out1 w1] eqn:Hp.
    + destruct (IH out1 w1 e out' w' Hrun Hne)
        as (pre & post & request & w2 & Hrs & Hr & Hpre & Hstop).
      exists (r :: pre), post, request, w2. rewrite Hrs.
      cbn [app processRequests]. rewrite Hp. repeat split; assumption.
    + injection Hrun as <- <- <-.
      destruct (processRequest_stop r out out1 w w1 e1 Hp) as [Hr ->].
      exists [], rs, r, w. repeat split; assumption.
Qed.

(** When [Generate] returns an error for a request the loop has reached,
    the loop stops there. *)
Lemma render_error_stops (pre post : list Request.t) (request : Request.t)
    (out out1 : string) (w w1 w2 : World E)
    (p0 : string) (ps : list string) (err : waveform.error) :
  processRequests E opts pre out w = (Returned, out1, w1) ->
  Request.Function request = "waveform" ->
  Request.Params request = p0 :: ps ->
  Generate E w1 (fst (base64.DecodeString p0)) opts = (inr err, w2) ->
  processRequests E opts (pre ++ request :: post)%list out w =
  (renderFailure err, out1, w2).
Proof.
  intros Hpre Hfn Hparams Hgen.
  rewrite (processRequests_reached _ _ _ _ _ _ Hpre).
  cbn [processRequests]. unfold processRequest.
  rewrite Hfn, Hparams; cbn [String.eqb].
  destruct (base64.DecodeString p0) as [unbased derr]; cbn [fst] in Hgen.
  rewrite Hgen. unfold renderFailure. destruct (known err); reflexivity.
Qed.

Lemma known_iff (err : waveform.error) :
  known err = true <->
  err = waveform.ErrFormat \/ err = waveform.ErrInvalidData
  \/ err = waveform.ErrUnexpectedEOS.
Proof.
  destruct err; cbn; intuition (try discriminate; auto).
Qed.

(** C9. The error of the base64 decoding is never looked at: a render
    request whose parameter does not decode is rendered from the bytes
    decoded before the error (what a leading part of the parameter decodes
    to, possibly nothing), and when that succeeds its response is the
    response of a success. *)
Theorem decode_error_is_discarded (request : Request.t)
    (p0 : string) (ps : list string) (unbased : string)
    (err : base64.CorruptInputError) (out : string) (w : World E) :
  Request.Function request = "waveform" ->
  Request.Params request = p0 :: ps ->
  base64.DecodeString p0 = (unbased, Some err) ->
  (exists q rest, p0 = q ++ rest /\ base64.DecodeString q = (unbased, None)) /\
  processRequest E opts request out w =
  match Generate E w unbased opts with
  | (inr e, w') => Stop (renderFailure e) out w'
  | (inl img, w') =>
      match tiff.Encode E img with
      | inr e => Stop (Panicked (PanicTiff e)) out w'
      | inl buff => Continue (out ++ document (responseFor request buff)) w'
      end
  end.
Proof.
  intros Hfn Hparams Hdec. split; [exact (DecodeString_partial _ _ _ Hdec)|].
  unfold processRequest.
  rewrite Hfn, Hparams, Hdec; cbn [String.eqb].
  destruct (Generate E w unbased opts) as [[img|e] w'].
  - destruct (tiff.Encode E img); reflexivity.
  - unfold renderFailure; destruct (known e); reflexivity.
Qed.

Lemma tiff_Encode_header (img : Image E) (buff : string) :
  tiff.Encode E img = inl buff -> exists rest, buff = tiff.leHeader ++ rest.
Proof.
  unfold tiff.Encode. destruct (tiffBody E img) as [rest|e]; [|discriminate].
  intros [= <-]; exists rest; reflexivity.
Qed.

Lemma EncodeToString_nonempty (src : string) :
  src <> EmptyString -> base64.EncodeToString src <> EmptyString.
Proof.
  destruct src as [|a [|b [|c rest]]]; [contradiction | | |];
    intros _; cbn [base64.EncodeToString]; discriminate.
Qed.

End Batch.

(** ** The response of a success, on the wire *)

Section Wire.

Lemma appendString_plain (s : string) :
  plain s = true -> json.appendString 0 true s = s.
Proof.
  induction s as [|c s IH]; [reflexivity|].
  cbn [plain json.appendString]. intros H.
  apply andb_true_iff in H as [Hc Hs].
  rewrite Hc, (IH Hs).
  unfold json.htmlSafe in Hc.
  apply andb_true_iff in Hc as [Hc _]. apply andb_true_iff in Hc as [_ Hc].
  rewrite Hc. reflexivity.
Qed.

Lemma encode_plain (i : Z) :
  0 <= i < 64 -> json.htmlSafe (byte (base64.encode i)) = true.
Proof.
  intros Hi. rewrite <- (Z2Nat.id i) by lia.
  assert (Hn : (Z.to_nat i < 64)%nat) by lia.
  generalize dependent (Z.to_nat i); clear i Hi; intros n Hn.
  do 64 (destruct n as [|n]; [reflexivity|]). lia.
Qed.

Lemma sextet_plain (val shift : Z) :
  json.htmlSafe (byte (base64.sextet val shift)) = true.
Proof.
  unfold base64.sextet. apply encode_plain.
  change 63 with (Z.ones 6). rewrite Z.land_ones by lia.
  apply Z.mod_pos_bound; reflexivity.
Qed.

Lemma EncodeToString_plain_upto (n : nat) :
  forall src, (String.length src <= n)%nat ->
  plain (base64.EncodeToString src) = true.
Proof.
  induction n as [|n IH]; intros src Hlen.
  - destruct src; [reflexivity | cbn in Hlen; lia].
  - destruct src as [|a [|b [|c rest]]]; cbn [base64.EncodeToString plain];
      rewrite ?sextet_plain; try reflexivity.
    cbn [andb]. apply IH. cbn [String.length] in Hlen; lia.
Qed.

Lemma EncodeToString_plain (src : string) :
  plain (base64.EncodeToString src) = true.
Proof. apply (EncodeToString_plain_upto (String.length src)); lia. Qed.

(** The document of a rendered request, byte for byte: the result is the
    base64 text as it is, and the error is the string "false" in quotes. *)
Lemma document_wire (request : Request.t) (buff : string) :
  document (responseFor request buff) =
  lit "{'responses':[{'id':" ++ json.quote (Request.Id request)
  ++ lit ",'result':'" ++ base64.EncodeToString buff
  ++ lit "','error':'false'}]}" ++ String "010" EmptyString.
Proof.
  unfold document, responseFor, json.Marshal, json.marshalResponse, json.quote.
  cbn [Responses_ map json.joinComma Response.Id Response.Result Response.Error].
  rewrite (appendString_plain (base64.EncodeToString buff))
    by apply EncodeToString_plain.
  change (json.appendString 0 true "false") with "false".
  repeat first
    [ rewrite !append_assoc
    | progress (cbn -[json.appendString base64.EncodeToString]) ].
  reflexivity.
Qed.

End Wire.

(** ** The batch protocol *)

Section Protocol.

Variable E : Engine.

(** A run with a known function name and an input that ends at end of
    file is the run of the loop over the decoded requests. *)
Lemma main_batch (f : Flags) (stdin : Stdin) (w : World E)
    (colorFn : waveform.ColorFunc) :
  lookup (fnSet f) (strFn f) = Some colorFn ->
  failure stdin = None ->
  main E f stdin w =
  let '(e, out, w') :=
    processRequests E (options f colorFn) (decoded stdin) EmptyString w in
  mkRun e out EmptyString w'.
Proof.
  intros Hfn Heof. rewrite main_unfold, Hfn. unfold atEnd. rewrite Heof.
  reflexivity.
Qed.

(** C1, as the code has it. The output is a sequence of documents, each
    followed by a newline and each the envelope of a single response: one
    for every render request processed before the run ends, in input order.
    A run that returns has processed every render request of the batch; a
    run that does not return has stopped at a render request, and its
    documents are those of the render requests before that one, no fewer.
    A batch with no request writes nothing. *)
Theorem one_document_per_rendered_request
    (f : Flags) (stdin : Stdin) (w : World E) (colorFn : waveform.ColorFunc) :
  lookup (fnSet f) (strFn f) = Some colorFn ->
  failure stdin = None ->
  exists resps : list Response.t,
    stdout (main E f stdin w) = documents resps /\
    Forall2 answers
      (firstn (List.length resps) (filter isRender (decoded stdin))) resps /\
    (exit (main E f stdin w) = Returned ->
     List.length resps = List.length (filter isRender (decoded stdin))) /\
    (exit (main E f stdin w) <> Returned ->
     exists (pre post : list Request.t) (request : Request.t) (w1 : World E),
       decoded stdin = (pre ++ request :: post)%list /\
       isRender request = true /\
       List.length resps = List.length (filter isRender pre) /\
       processRequests E (options f colorFn) pre EmptyString w
       = (Returned, documents resps, w1) /\
       processRequest E (options f colorFn) request (documents resps) w1
       = Stop (exit (main E f stdin w)) (documents resps)
              (world (main E f stdin w))) /\
    (decoded stdin = [] -> stdout (main E f stdin w) = EmptyString).
Proof.
  intros Hfn Heof. rewrite (main_batch f stdin w colorFn Hfn Heof).
  destruct (processRequests E (options f colorFn) (decoded stdin) EmptyString w)
    as [[e out] w'] eqn:Hrun.
  cbn [stdout exit world].
  assert (Hnil : decoded stdin = [] -> out = EmptyString).
  { intros H; rewrite H in Hrun; cbn in Hrun.
    injection Hrun as _ <- _; reflexivity. }
  assert (He : e = Returned \/ e <> Returned)
    by (destruct e; solve [left; reflexivity | right; discriminate]).
  destruct He as [He|He].
  - destruct (processRequests_documents E (options f colorFn) (decoded stdin)
                EmptyString w) as (resps & Hout & Hall & _ & Hret).
    rewrite Hrun in Hout, Hret. cbn [fst snd append] in Hout, Hret.
    exists resps. repeat split;
      [exact Hout | exact Hall | exact Hret | contradiction | exact Hnil].
  - destruct (processRequests_stopped E (options f colorFn) (decoded stdin)
                EmptyString w e out w' Hrun He)
      as (pre & post & request & w1 & Hrs & Hr & Hpre & Hstop).
    destruct (processRequests_documents E (options f colorFn) pre EmptyString w)
      as (resps & Hout & Hall & _ & Hret).
    rewrite Hpre in Hout, Hret. cbn [fst snd append] in Hout, Hret.
    specialize (Hret eq_refl). subst out.
    exists resps. repeat split.
    + rewrite Hrs, filter_app, firstn_app, Hret, Nat.sub_diag, firstn_O, app_nil_r.
      rewrite <- Hret. exact Hall.
    + intros Hx; contradiction.
    + intros _. exists pre, post, request, w1.
      repeat split; assumption.
    + exact Hnil.
Qed.

(** C2. When the engine returns an error for a render request the run has
    reached, the process ends there: with the fatal log when the error is
    one of the three known ones, with a panic otherwise.  Nothing is written
    for that request or for those after it. *)
Theorem render_error_ends_the_process
    (f : Flags) (stdin : Stdin) (w : World E) (colorFn : waveform.ColorFunc)
    (pre post : list Request.t) (request : Request.t)
    (out1 : string) (w1 w2 : World E)
    (p0 : string) (ps : list string) (err : waveform.error) :
  lookup (fnSet f) (strFn f) = Some colorFn ->
  failure stdin = None ->
  decoded stdin = (pre ++ request :: post)%list ->
  processRequests E (options f colorFn) pre EmptyString w = (Returned, out1, w1) ->
  Request.Function request = "waveform" ->
  Request.Params request = p0 :: ps ->
  Generate E w1 (fst (base64.DecodeString p0)) (options f colorFn) = (inr err, w2) ->
  main E f stdin w = mkRun (renderFailure err) out1 EmptyString w2 /\
  (In err knownErr -> renderFailure err = Fatal err) /\
  (~ In err knownErr -> renderFailure err = Panicked (PanicGenerate err)).
Proof.
  intros Hfn Heof Hdec Hpre Hreq Hparams Hgen.
  rewrite (main_batch f stdin w colorFn Hfn Heof), Hdec.
  rewrite (render_error_stops E _ pre post request _ out1 w w1 w2 p0 ps err
             Hpre Hreq Hparams Hgen).
  split; [reflexivity|].
  unfold renderFailure.
  destruct (known err) eqn:Hk.
  - split; [reflexivity|]. intros Hn; exfalso; apply Hn.
    apply known_iff in Hk. cbn. intuition auto.
  - split; [|reflexivity]. intros Hin.
    assert (Hk' : known err = true)
      by (apply known_iff; cbn in Hin; intuition auto).
    congruence.
Qed.

(** C4. A render request whose rendering succeeds is answered by the
    document of one response: its id is the request's, its result is the
    base64 text of the serialised image, which is never empty and decodes
    back to the bytes of the image, and its error is the string "false",
    written in quotes. *)
Theorem success_response
    (opts : list waveform.OptionsFunc) (request : Request.t)
    (p0 : string) (ps : list string) (out : string) (w w' : World E)
    (img : Image E) (buff : string) :
  Request.Function request = "waveform" ->
  Request.Params request = p0 :: ps ->
  Generate E w (fst (base64.DecodeString p0)) opts = (inl img, w') ->
  tiff.Encode E img = inl buff ->
  let resp :=
    Response.mk (Request.Id request) (base64.EncodeToString buff) "false" in
  processRequest E opts request out w = Continue (out ++ document resp) w' /\
  Response.Error resp = "false" /\
  Response.Result resp <> EmptyString /\
  base64.DecodeString (Response.Result resp) = (buff, None) /\
  document resp =
    lit "{'responses':[{'id':" ++ json.quote (Request.Id request)
    ++ lit ",'result':'" ++ Response.Result resp
    ++ lit "','error':'false'}]}" ++ String "010" EmptyString.
Proof.
  intros Hfn Hparams Hgen Henc resp. repeat split.
  - unfold processRequest. rewrite Hfn, Hparams; cbn [String.eqb].
    destruct (base64.DecodeString p0) as [unbased derr]; cbn [fst] in Hgen.
    rewrite Hgen, Henc. reflexivity.
  - destruct (tiff_Encode_header E img buff Henc) as [rest ->].
    apply EncodeToString_nonempty. discriminate.
  - apply DecodeString_EncodeToString.
  - apply (document_wire request buff).
Qed.

(** C6, as the code has it. The error of [json.Unmarshal] is never looked
    at.  When the input is not one well-formed JSON value nothing has been
    decoded: the loop has no request to process, nothing is written and
    [main] returns.  In every case the run depends on the input only
    through the requests that have been stored. *)
Theorem syntax_error_yields_no_response
    (f : Flags) (stdin : Stdin) (w : World E) (colorFn : waveform.ColorFunc) :
  lookup (fnSet f) (strFn f) = Some colorFn ->
  failure stdin = None ->
  (json.checkValid (data stdin) = false ->
   json.Unmarshal (data stdin) = (mkRequests [], Some json.SyntaxError) /\
   main E f stdin w = mkRun Returned EmptyString EmptyString w) /\
  (forall stdin' : Stdin,
     failure stdin' = None -> decoded stdin' = decoded stdin ->
     main E f stdin' w = main E f stdin w).
Proof.
  intros Hfn Heof. split.
  - intros Hbad.
    assert (Hun : json.Unmarshal (data stdin)
                  = (mkRequests [], Some json.SyntaxError)).
    { unfold json.checkValid in Hbad. unfold json.Unmarshal.
      destruct (json.scan (data stdin)); [discriminate | reflexivity]. }
    split; [exact Hun|].
    rewrite (main_batch f stdin w colorFn Hfn Heof).
    unfold decoded. rewrite Hun. reflexivity.
  - intros stdin' Heof' Hsame.
    rewrite (main_batch f stdin w colorFn Hfn Heof).
    rewrite (main_batch f stdin' w colorFn Hfn Heof'), Hsame. reflexivity.
Qed.

End Protocol.

(** ** Runs on the stand-in engine *)

Section Runs.

Example run_batchABC :
  main toyEngine defaultFlags (eof batchABC) 0%nat
  = mkRun Returned (document responseA ++ document responseC) EmptyString 2%nat.
Proof. reflexivity. Qed.

Example run_batchBare :
  main toyEngine defaultFlags (eof batchBare) 0%nat
  = mkRun (Panicked (PanicIndex 0 0)) (document responseA) EmptyString 1%nat.
Proof. reflexivity. Qed.

Example run_read_error :
  main toyEngine defaultFlags (mkStdin batchABC (Some "read failed")) 0%nat
  = mkRun OsExit1 (Println EmptyString "read failed") EmptyString 0%nat.
Proof. reflexivity. Qed.

(** C1 does not hold as stated: the empty batch writes no byte at all, not
    the document of an empty array, and a batch of two render requests
    writes two documents. *)
Lemma batch_output_is_not_one_document :
  stdout (main toyEngine defaultFlags (eof batchEmpty) 0%nat) = EmptyString /\
  json.Marshal (mkResponses []) = lit "{'responses':[]}" /\
  stdout (main toyEngine defaultFlags (eof batchABC) 0%nat)
  = lit "{'responses':[{'id':'a','result':'SUkqAEFCQw==','error':'false'}]}
{'responses':[{'id':'c','result':'SUkqAERFRg==','error':'false'}]}
".
Proof. repeat split. Qed.

Lemma one_document_per_rendered_request_witness :
  exists resps : list Response.t,
    stdout (main toyEngine defaultFlags (eof batchCorrupt) 0%nat)
    = documents resps /\
    Forall2 answers
      (firstn (List.length resps) (filter isRender (decoded (eof batchCorrupt))))
      resps /\
    (exit (main toyEngine defaultFlags (eof batchCorrupt) 0%nat) = Returned ->
     List.length resps
     = List.length (filter isRender (decoded (eof batchCorrupt)))) /\
    (exit (main toyEngine defaultFlags (eof batchCorrupt) 0%nat) <> Returned ->
     exists (pre post : list Request.t) (request : Request.t) (w1 : nat),
       decoded (eof batchCorrupt) = (pre ++ request :: post)%list /\
       isRender request = true /\
       List.length resps = List.length (filter isRender pre) /\
       processRequests toyEngine sampleOptions pre EmptyString 0%nat
       = (Returned, documents resps, w1) /\
       processRequest toyEngine sampleOptions request (documents resps) w1
       = Stop (exit (main toyEngine defaultFlags (eof batchCorrupt) 0%nat))
              (documents resps)
              (world (main toyEngine defaultFlags (eof batchCorrupt) 0%nat))) /\
    (decoded (eof batchCorrupt) = [] ->
     stdout (main toyEngine defaultFlags (eof batchCorrupt) 0%nat) = EmptyString).
Proof.
  exact (one_document_per_rendered_request toyEngine defaultFlags
           (eof batchCorrupt) 0%nat solid eq_refl eq_refl).
Defined.

Lemma render_error_ends_the_process_witness :
  main toyEngine defaultFlags (eof batchCorrupt) 0%nat
  = mkRun (Fatal waveform.ErrFormat) (document responseA) EmptyString 2%nat.
Proof.
  exact (proj1 (render_error_ends_the_process toyEngine defaultFlags
                  (eof batchCorrupt) 0%nat solid
                  [requestA] [requestC] requestCorrupt
                  (document responseA) 1%nat 2%nat "!!!" [] waveform.ErrFormat
                  eq_refl eq_refl eq_refl eq_refl eq_refl eq_refl eq_refl)).
Defined.

Example run_batchOdd :
  main toyEngine defaultFlags (eof batchOdd) 0%nat
  = mkRun (Panicked (PanicGenerate (waveform.ErrOther "bad option")))
          (document responseA) EmptyString 2%nat.
Proof. reflexivity. Qed.

Lemma success_response_witness :
  processRequest toyEngine sampleOptions requestA EmptyString 0%nat
  = Continue (document responseA) 1%nat /\
  Response.Error responseA = "false" /\
  Response.Result responseA <> EmptyString /\
  base64.DecodeString (Response.Result responseA) = (tiff.leHeader ++ "ABC", None) /\
  document responseA =
    lit "{'responses':[{'id':" ++ json.quote "a"
    ++ lit ",'result':'" ++ Response.Result responseA
    ++ lit "','error':'false'}]}" ++ String "010" EmptyString.
Proof.
  exact (success_response toyEngine sampleOptions requestA "QUJD" [] EmptyString
           0%nat 1%nat "ABC" (tiff.leHeader ++ "ABC")
           eq_refl eq_refl eq_refl eq_refl).
Defined.

(** C6 does not hold as stated: for a well-formed document in which a
    value has the wrong type, [json.Unmarshal] returns an error, and yet the
    request has been stored; it is rendered and answered. *)
Lemma mistyped_batch_is_processed :
  json.Unmarshal batchMistyped
  = (mkRequests [Request.mk "" "waveform" ["QUJD"]],
     Some (json.UnmarshalTypeError json.KNumber "string")) /\
  main toyEngine defaultFlags (eof batchMistyped) 0%nat
  = mkRun Returned
      (lit "{'responses':[{'id':'','result':'SUkqAEFCQw==','error':'false'}]}
") EmptyString 1%nat.
Proof. split; reflexivity. Qed.

Lemma syntax_error_yields_no_response_witness :
  json.Unmarshal (lit "{'requests':[{'id':'a'")
  = (mkRequests [], Some json.SyntaxError) /\
  main toyEngine defaultFlags (eof (lit "{'requests':[{'id':'a'")) 0%nat
  = mkRun Returned EmptyString EmptyString 0%nat.
Proof.
  exact (proj1 (syntax_error_yields_no_response toyEngine defaultFlags
                  (eof (lit "{'requests':[{'id':'a'")) 0%nat solid
                  eq_refl eq_refl) eq_refl).
Defined.

Lemma other_functions_are_skipped_witness :
  processRequest toyEngine sampleOptions requestB EmptyString 0%nat
  = Continue EmptyString 0%nat /\
  processRequests toyEngine sampleOptions [requestA; requestB; requestC] EmptyString 0%nat
  = processRequests toyEngine sampleOptions [requestA; requestC] EmptyString 0%nat.
Proof.
  apply (other_functions_are_skipped toyEngine sampleOptions requestB
           [requestA] [requestC] EmptyString 0%nat).
  discriminate.
Defined.

Lemma decode_error_is_discarded_witness :
  processRequest toyEngine sampleOptions requestPartial EmptyString 0%nat
  = Continue (document (Response.mk "y" "SUkqAEFCQw==" "false")) 1%nat.
Proof.
  exact (proj2 (decode_error_is_discarded toyEngine sampleOptions requestPartial
                  "QUJD!" [] "ABC" (base64.Corrupt 4) EmptyString 0%nat
                  eq_refl eq_refl eq_refl)).
Defined.

Lemma empty_params_panic_witness :
  processRequests toyEngine sampleOptions [requestA; requestBare; requestC] EmptyString 0%nat
  = (Panicked (PanicIndex 0 0), document responseA, 1%nat).
Proof.
  exact (proj1 (empty_params_panic toyEngine sampleOptions
                  [requestA; requestBare; requestC] EmptyString 0%nat)
           [requestA] [requestC] requestBare (document responseA) 1%nat
           eq_refl eq_refl eq_refl eq_refl).
Defined.

End Runs.

(** * Further properties *)

(** ** Further properties of the command *)

Section Command.

Variable E : Engine.

(** X1. A read error on standard input is printed on standard output and
    the process exits with status 1: no request is processed and the engine
    is not called, however much of a batch had been read. *)
Theorem read_error_is_reported
    (f : Flags) (stdin : Stdin) (w : World E) (colorFn : waveform.ColorFunc)
    (msg : string) :
  lookup (fnSet f) (strFn f) = Some colorFn ->
  failure stdin = Some msg ->
  main E f stdin w
  = mkRun OsExit1 (msg ++ String "010" EmptyString) EmptyString w.
Proof.
  intros Hfn Hfail. rewrite main_unfold, Hfn. unfold atEnd. rewrite Hfail.
  reflexivity.
Qed.

(** How the loop can end: by returning, by the fatal log of a known error,
    or by a panic, which carries an error of [Generate] only when that
    error is not a known one. *)
Lemma processRequests_exits (opts : list waveform.OptionsFunc)
    (rs : list Request.t) :
  forall (out : string) (w : World E),
  match fst (fst (processRequests E opts rs out w)) with
  | Returned => True
  | Fatal err => known err = true
  | Panicked (PanicGenerate err) => known err = false
  | Panicked _ => True
  | _ => False
  end.
Proof.
  induction rs as [|r rs IH]; intros out w; cbn [processRequests].
  - exact I.
  - unfold processRequest.
    destruct (String.eqb (Request.Function r) "waveform"); [|apply IH].
    destruct (Request.Params r) as [|p0 ps]; [exact I|].
    destruct (base64.DecodeString p0) as [unbased derr].
    destruct (Generate E w unbased opts) as [[img|e] w'].
    + destruct (tiff.Encode E img); [apply IH | exact I].
    + destruct (known e) eqn:Hk; cbn; exact Hk.
Qed.

Lemma main_exits (f : Flags) (stdin : Stdin) (w : World E) :
  match exit (main E f stdin w) with
  | Fatal err => known err = true
  | Panicked (PanicGenerate err) => known err = false
  | OutOfFuel => False
  | _ => True
  end.
Proof.
  rewrite main_unfold.
  destruct (lookup (fnSet f) (strFn f)) as [colorFn|]; [|exact I].
  unfold atEnd. destruct (failure stdin); [exact I|].
  pose proof (processRequests_exits (options f colorFn) (decoded stdin)
                EmptyString w) as H.
  unfold decoded in H.
  destruct (processRequests E (options f colorFn) _ EmptyString w) as [[e out] w'].
  cbn [fst exit] in *. destruct e as [| | | |[]|]; try exact I; exact H.
Qed.

(** X2. The fatal log of a rendering error carries one of the three known
    errors and no other, and a panic carries an error of [Generate] only
    when it is none of the three. *)
Theorem fatal_only_for_known_errors
    (f : Flags) (stdin : Stdin) (w : World E) (err : waveform.error) :
  (exit (main E f stdin w) = Fatal err -> In err knownErr) /\
  (exit (main E f stdin w) = Panicked (PanicGenerate err) -> ~ In err knownErr).
Proof.
  pose proof (main_exits f stdin w) as H. split; intros Hexit; rewrite Hexit in H.
  - apply known_iff in H. cbn. intuition auto.
  - intros Hin. assert (known err = true) by (apply known_iff; cbn in Hin; intuition auto).
    congruence.
Qed.

(** X3. With one of the five function names the flag check passes, and
    whatever happens next happens after standard input has been read to its
    end: no run leaves input unread, be the input a batch or not, and be
    the batch completed or not. *)
Theorem known_function_reads_all_input
    (f : Flags) (stdin : Stdin) (w : World E) :
  In (strFn f) fnNames ->
  (forall fn, exit (main E f stdin w) <> Fatalf fn) /\
  unread (main E f stdin w) = EmptyString.
Proof.
  intros Hin.
  destruct (lookup_Some (fnSet f) (strFn f) Hin) as [colorFn Hfn].
  pose proof (processRequests_exits (options f colorFn) (decoded stdin)
                EmptyString w) as Hex.
  rewrite main_unfold, Hfn. unfold atEnd, decoded in *.
  destruct (failure stdin); [split; [discriminate | reflexivity]|].
  destruct (processRequests E (options f colorFn) _ EmptyString w) as [[e out] w'].
  cbn [fst exit unread] in *.
  split; [|reflexivity]. intros fn Hfn'. rewrite Hfn' in Hex. exact Hex.
Qed.

End Command.

Section Loop.

Variable E : Engine.

(** X4. When the image of a request the run has reached cannot be
    serialised, the process panics: nothing is written for that request or
    for those after it. *)
Theorem tiff_error_panics
    (f : Flags) (stdin : Stdin) (w : World E) (colorFn : waveform.ColorFunc)
    (pre post : list Request.t) (request : Request.t)
    (out1 : string) (w1 w2 : World E)
    (p0 : string) (ps : list string) (img : Image E) (err : string) :
  lookup (fnSet f) (strFn f) = Some colorFn ->
  failure stdin = None ->
  decoded stdin = (pre ++ request :: post)%list ->
  processRequests E (options f colorFn) pre EmptyString w = (Returned, out1, w1) ->
  Request.Function request = "waveform" ->
  Request.Params request = p0 :: ps ->
  Generate E w1 (fst (base64.DecodeString p0)) (options f colorFn) = (inl img, w2) ->
  tiff.Encode E img = inr err ->
  main E f stdin w = mkRun (Panicked (PanicTiff err)) out1 EmptyString w2.
Proof.
  intros Hfn Heof Hdec Hpre Hreq Hparams Hgen Henc.
  rewrite (main_batch E f stdin w colorFn Hfn Heof), Hdec.
  rewrite (processRequests_reached E _ pre _ _ _ _ _ Hpre).
  cbn [processRequests]. unfold processRequest.
  rewrite Hreq, Hparams; cbn [String.eqb].
  destruct (base64.DecodeString p0) as [unbased derr]; cbn [fst] in Hgen.
  rewrite Hgen, Henc. reflexivity.
Qed.

Variable opts : list waveform.OptionsFunc.

Lemma processRequest_firstParam (r : Request.t) (out : string) (w : World E) :
  processRequest E opts (firstParam r) out w = processRequest E opts r out w.
Proof.
  unfold processRequest, firstParam. cbn [Request.Function Request.Params Request.Id].
  destruct (String.eqb (Request.Function r) "waveform"); [|reflexivity].
  destruct (Request.Params r) as [|p0 ps]; reflexivity.
Qed.

(** X5. Of the parameters of a request only the first is ever read: a
    batch runs exactly as the batch in which every request has lost its
    further parameters. *)
Theorem only_first_param_is_used (rs : list Request.t) :
  forall (out : string) (w : World E),
  processRequests E opts (map firstParam rs) out w
  = processRequests E opts rs out w.
Proof.
  induction rs as [|r rs IH]; intros out w; [reflexivity|].
  cbn [map processRequests]. rewrite processRequest_firstParam.
  destruct (processRequest E opts r out w); [apply IH | reflexivity].
Qed.

Lemma filter_none (rs : list Request.t) :
  (forall r, In r rs -> Request.Function r <> "waveform") ->
  filter isRender rs = [].
Proof.
  induction rs as [|r rs IH]; intros H; [reflexivity|].
  cbn [filter]. rewrite (not_render r (H r (or_introl eq_refl))).
  apply IH. intros q Hq; apply H; right; exact Hq.
Qed.

(** X7. What has been written for the first requests of a batch does not
    depend on the requests that follow: the output of a batch starts with
    the output of each of its leading parts. *)
Theorem output_of_prefix_is_prefix
    (pre post : list Request.t) (out : string) (w : World E) :
  startsWith (snd (fst (processRequests E opts pre out w)))
             (snd (fst (processRequests E opts (pre ++ post)%list out w))).
Proof.
  rewrite processRequests_app.
  destruct (processRequests E opts pre out w) as [[e out1] w1]. cbn [fst snd].
  destruct e; try (exists EmptyString; cbn [fst snd]; rewrite append_nil_r; reflexivity).
  destruct (processRequests_documents E opts post out1 w1) as (resps & Hout & _).
  exists (documents resps). exact Hout.
Qed.

End Loop.

Section Policy2.

Variable E : Engine.

(** X6. A batch in which no request has the function "waveform" returns
    without output and without a call of the engine. *)
Theorem no_render_request_no_engine_call
    (f : Flags) (stdin : Stdin) (w : World E) (colorFn : waveform.ColorFunc) :
  lookup (fnSet f) (strFn f) = Some colorFn ->
  failure stdin = None ->
  (forall r, In r (decoded stdin) -> Request.Function r <> "waveform") ->
  main E f stdin w = mkRun Returned EmptyString EmptyString w.
Proof.
  intros Hfn Heof Hnone.
  rewrite (main_batch E f stdin w colorFn Hfn Heof).
  rewrite processRequests_filter, (filter_none _ Hnone). reflexivity.
Qed.

(** X8. With the function "solid" the alternate colour plays no part: the
    run is the same whatever the alternate colour flag holds. *)
Theorem solid_ignores_alt
    (f : Flags) (alt : string) (stdin : Stdin) (w : World E) :
  strFn f = fnSolid ->
  main E (withAlt f alt) stdin w = main E f stdin w.
Proof.
  intros Hfn. unfold main, fnSet, withAlt; cbn [strFn]. rewrite Hfn.
  reflexivity.
Qed.

Lemma hexToRGB_bytes (h : string) :
  let '(r, g, b) := hexToRGB h in
  0 <= r < 256 /\ 0 <= g < 256 /\ 0 <= b < 256.
Proof.
  unfold hexToRGB; cbv zeta.
  match goal with |- context [if ?c then _ else (0, 0, 0)] => destruct c end;
    [|lia].
  match goal with |- context [strconv.ParseUint ?s 16 32] =>
    destruct (strconv.ParseUint s 16 32) as [rgb [e|]] end; [lia|].
  unfold uint8. change (2 ^ 8) with 256.
  repeat split; apply Z.mod_pos_bound; reflexivity.
Qed.

Lemma rgba_opaque (h : string) : opaque (rgba h).
Proof.
  unfold rgba, opaque. pose proof (hexToRGB_bytes h) as H.
  destruct (hexToRGB h) as [[r g] b]. cbn. intuition auto.
Qed.

(** X9. Whatever the three colour flags hold, the background, foreground
    and alternate colours are fully opaque and each channel is a byte. *)
Theorem colors_are_opaque_bytes (f : Flags) :
  opaque (bgColor f) /\ opaque (fgColor f) /\ opaque (altColor f).
Proof.
  unfold bgColor, fgColor, altColor.
  destruct (negb (String.eqb (strAltColor f) ""));
    (split; [|split]); apply rgba_opaque.
Qed.

End Policy2.

Section Lines.


Lemma not_newline (c : ascii) : 32 <= byte c -> Ascii.eqb c "010" = false.
Proof.
  intros H. destruct (Ascii.eqb_spec c "010") as [->|]; [|reflexivity].
  vm_compute in H. exfalso; apply H; reflexivity.
Qed.



Lemma htmlSafe_printable (b : Z) : json.htmlSafe b = true -> 32 <= b.
Proof.
  unfold json.htmlSafe. intros H.
  apply andb_true_iff in H as [H _]. apply andb_true_iff in H as [H _].
  apply Z.leb_le in H. exact H.
Qed.







Variable E : Engine.


End Lines.

Section Hex.

Lemma upcase_hash (c : ascii) : Ascii.eqb (upcase c) "#" = Ascii.eqb c "#".
Proof. destruct c as [[] [] [] [] [] [] [] []]; reflexivity. Qed.

Lemma upcase_digit (c : ascii) :
  strconv.digit (byte (upcase c)) = strconv.digit (byte c).
Proof. destruct c as [[] [] [] [] [] [] [] []]; reflexivity. Qed.

Lemma upper_length (s : string) : String.length (upper s) = String.length s.
Proof. induction s as [|c s IH]; cbn; [|rewrite IH]; reflexivity. Qed.

Lemma upper_len (s : string) : len (upper s) = len s.
Proof. unfold len. rewrite upper_length. reflexivity. Qed.

Lemma upper_app (a b : string) : upper (a ++ b) = upper a ++ upper b.
Proof. induction a as [|c a IH]; cbn; [|rewrite IH]; reflexivity. Qed.

Lemma upper_substring (n m : nat) (s : string) :
  substring n m (upper s) = upper (substring n m s).
Proof.
  revert n m; induction s as [|c s IH]; intros n m.
  - destruct n, m; reflexivity.
  - destruct n as [|n]; [destruct m as [|m]|]; cbn [upper substring];
      [reflexivity | rewrite IH; reflexivity | apply IH].
Qed.

Lemma upper_parseLoop (base cutoff maxVal : Z) (s : string) :
  forall n, strconv.parseLoop base cutoff maxVal (upper s) n
            = strconv.parseLoop base cutoff maxVal s n.
Proof.
  induction s as [|c s IH]; intros n; [reflexivity|].
  cbn [upper strconv.parseLoop]. rewrite upcase_digit.
  destruct (strconv.digit (byte c)) as [d|]; [|reflexivity].
  destruct (d >=? base); [reflexivity|].
  destruct (n >=? cutoff); [reflexivity|].
  cbv zeta. destruct (_ || _); [reflexivity | apply IH].
Qed.

Lemma upper_ParseUint (s : string) (base bitSize : Z) :
  strconv.ParseUint (upper s) base bitSize = strconv.ParseUint s base bitSize.
Proof.
  destruct s as [|c s]; [reflexivity|].
  unfold strconv.ParseUint. cbn [upper].
  destruct (negb _); [reflexivity|].
  destruct (_ || _); [reflexivity|].
  apply (upper_parseLoop _ _ _ (String c s)).
Qed.

(** What [hexToRGB] does once the leading "#" is gone. *)
Lemma hexToRGB_body_upper (h : string) :
  (let h1 :=
     if len (upper h) =? 3 then
       substring 0 1 (upper h) ++ substring 0 1 (upper h) ++
       substring 1 1 (upper h) ++ substring 1 1 (upper h) ++
       substring 2 (String.length (upper h) - 2) (upper h) ++
       substring 2 (String.length (upper h) - 2) (upper h)
     else upper h in
   if len h1 =? 6 then
     match strconv.ParseUint h1 16 32 with
     | (rgb, None) =>
         (uint8 (Z.shiftr rgb 16), uint8 (Z.land (Z.shiftr rgb 8) 255),
          uint8 (Z.land rgb 255))
     | (_, Some _) => (0, 0, 0)
     end
   else (0, 0, 0)) =
  (let h1 :=
     if len h =? 3 then
       substring 0 1 h ++ substring 0 1 h ++
       substring 1 1 h ++ substring 1 1 h ++
       substring 2 (String.length h - 2) h ++ substring 2 (String.length h - 2) h
     else h in
   if len h1 =? 6 then
     match strconv.ParseUint h1 16 32 with
     | (rgb, None) =>
         (uint8 (Z.shiftr rgb 16), uint8 (Z.land (Z.shiftr rgb 8) 255),
          uint8 (Z.land rgb 255))
     | (_, Some _) => (0, 0, 0)
     end
   else (0, 0, 0)).
Proof.
  cbv zeta. rewrite upper_len, upper_length, !upper_substring, <- !upper_app.
  destruct (len h =? 3); rewrite upper_len, upper_ParseUint; reflexivity.
Qed.

(** X11. The case of the letters of a colour does not matter: a string and
    the same string in upper case give the same colour. *)
Theorem hexToRGB_ignores_case (h : string) :
  hexToRGB (upper h) = hexToRGB h.
Proof.
  destruct h as [|c t]; [reflexivity|].
  unfold hexToRGB. cbn [upper]. rewrite upcase_hash.
  destruct (Ascii.eqb c "#").
  - apply (hexToRGB_body_upper t).
  - apply (hexToRGB_body_upper (String c t)).
Qed.

Lemma hexDigit_hex (d : Z) : 0 <= d < 16 -> hexDigit (json.hex d) = Some d.
Proof.
  intros Hd. rewrite <- (Z2Nat.id d) by lia.
  assert (Hn : (Z.to_nat d < 16)%nat) by lia.
  generalize dependent (Z.to_nat d); clear d Hd; intros n Hn.
  do 16 (destruct n as [|n]; [reflexivity|]). lia.
Qed.

(** X12. Every colour of 8 bits a channel can be written: its usual
    notation, "#" and two hex digits a channel, is read back as that very
    colour. *)
Theorem hexToRGB_formatColor (r g b : Z) :
  0 <= r < 256 -> 0 <= g < 256 -> 0 <= b < 256 ->
  hexToRGB (formatColor r g b) = (r, g, b).
Proof.
  intros Hr Hg Hb.
  assert (Hdiv : forall x, 0 <= x < 256 -> 0 <= x / 16 < 16 /\ 0 <= x mod 16 < 16)
    by (intros x Hx; split; Z.div_mod_to_equations; lia).
  destruct (Hdiv r Hr) as [Hr1 Hr0]. destruct (Hdiv g Hg) as [Hg1 Hg0].
  destruct (Hdiv b Hb) as [Hb1 Hb0].
  unfold hexToRGB, formatColor. cbn [Ascii.eqb Bool.eqb andb].
  change (len _ =? 3) with false. cbv iota zeta.
  change (len _ =? 6) with true. cbv iota.
  rewrite ParseUint_16_32, parseLoop_hex by (vm_compute; discriminate).
  cbn [hexDigits]. rewrite !hexDigit_hex by assumption.
  rewrite (rgb_of_digits _ _ _ _ _ _ Hr1 Hr0 Hg1 Hg0 Hb1 Hb0).
  unfold channel. f_equal; [f_equal|]; Z.div_mod_to_equations; lia.
Qed.

End Hex.

Section Old.

Ltac step_sextet' :=
  rewrite decode_sextet; cbv zeta; cbn [app List.length Nat.eqb].

Lemma isNewline_cases (c : ascii) :
  base64.isNewline c = true -> c = "010"%char \/ c = "013"%char.
Proof.
  unfold base64.isNewline. intros H. apply orb_true_iff in H as [H|H];
    apply Ascii.eqb_eq in H; auto.
Qed.

Lemma decode_newlines (nl : string) :
  forall si, allNewlines nl = true ->
  base64.decode nl si [] = (EmptyString, None).
Proof.
  induction nl as [|c nl IH]; intros si H; [reflexivity|].
  cbn [allNewlines] in H. apply andb_true_iff in H as [Hc Hnl].
  destruct (isNewline_cases c Hc) as [->| ->]; cbn [base64.decode];
    cbn -[base64.decode]; apply IH, Hnl.
Qed.

(** Newlines after an encoded text do not change what it decodes to. *)
Lemma decode_EncodeToString_newlines (n : nat) (nl : string) :
  allNewlines nl = true ->
  forall src si, (String.length src <= n)%nat ->
  base64.decode (base64.EncodeToString src ++ nl) si [] = (src, None).
Proof.
  intros Hnl. induction n as [|n IH]; intros src si Hlen.
  - destruct src; [apply decode_newlines, Hnl | cbn in Hlen; lia].
  - destruct src as [|a [|b [|c rest]]]; cbn [base64.EncodeToString append].
    + apply decode_newlines, Hnl.
    + do 2 step_sextet'.
      cbn -[Z.land Z.shiftr Z.shiftl Z.lor base64.quantumBytes base64.afterPadding].
      rewrite afterPadding_clean by exact Hnl.
      rewrite (quantumBytes_one a). reflexivity.
    + do 3 step_sextet'.
      cbn -[Z.land Z.shiftr Z.shiftl Z.lor base64.quantumBytes base64.afterPadding].
      rewrite afterPadding_clean by exact Hnl.
      rewrite (quantumBytes_two a b). reflexivity.
    + do 4 step_sextet'.
      rewrite IH by (cbn [String.length] in Hlen; lia).
      rewrite (quantumBytes_full a b c). reflexivity.
Qed.

Lemma old_main_decodes (stdin : Stdin) :
  failure stdin = None ->
  base64.DecodeString (snd (old.main stdin)) = (data stdin, None).
Proof.
  intros Heof. unfold old.main, old.ReadAll. rewrite Heof. cbn [snd].
  unfold Println, base64.DecodeString. cbn [append].
  apply (decode_EncodeToString_newlines (String.length (data stdin))
           (String "010" EmptyString)); [reflexivity | lia].
Qed.

(** X13. What the earlier command prints for an input that ends at end of
    file is a base64 text of that input: decoding the whole output, its
    final newline included, gives the input back without error. *)
Theorem old_main_round_trip (stdin : Stdin) :
  failure stdin = None ->
  fst (old.main stdin) = old.Returned /\
  base64.DecodeString (snd (old.main stdin)) = (data stdin, None).
Proof.
  intros Heof. split; [|exact (old_main_decodes stdin Heof)].
  unfold old.main, old.ReadAll. rewrite Heof. reflexivity.
Qed.

Lemma EncodeToString_length_upto (n : nat) :
  forall src, (String.length src <= n)%nat ->
  String.length (base64.EncodeToString src)
  = (4 * ((String.length src + 2) / 3))%nat.
Proof.
  induction n as [|n IH]; intros src Hlen.
  - destruct src; [reflexivity | cbn in Hlen; lia].
  - destruct src as [|a [|b [|c rest]]]; try reflexivity.
    cbn [base64.EncodeToString String.length].
    rewrite IH by (cbn [String.length] in Hlen; lia).
    replace (S (S (S (String.length rest))) + 2)%nat
      with (String.length rest + 2 + 1 * 3)%nat by lia.
    rewrite Nat.div_add by lia. lia.
Qed.

Lemma plain_no_newline (s : string) : plain s = true -> newlines s = O.
Proof.
  induction s as [|c s IH]; [reflexivity|].
  cbn [plain newlines]. intros H. apply andb_true_iff in H as [Hc Hs].
  rewrite (not_newline c (htmlSafe_printable _ Hc)), (IH Hs). reflexivity.
Qed.

(** X14. The output of the earlier command is one line of printable
    ASCII, four characters for every three bytes of input or part of three:
    of [n] bytes it makes 4 * ceil(n / 3) characters and the newline. *)
Theorem old_main_output_shape (stdin : Stdin) :
  failure stdin = None ->
  exists text : string,
    snd (old.main stdin) = text ++ String "010" EmptyString /\
    String.length text = (4 * ((String.length (data stdin) + 2) / 3))%nat /\
    plain text = true /\ newlines text = O.
Proof.
  intros Heof. exists (base64.EncodeToString (data stdin)).
  unfold old.main, old.ReadAll. rewrite Heof. cbn [snd].
  repeat split.
  - apply (EncodeToString_length_upto (String.length (data stdin))); lia.
  - apply EncodeToString_plain.
  - apply plain_no_newline, EncodeToString_plain.
Qed.

Variable E : Engine.
Variable opts : list waveform.OptionsFunc.

(** X15. The two commands compose: the line the earlier command prints
    for an audio file, taken as the first parameter of a render request, is
    decoded without error to that very file, which is what the engine is
    given. *)
Theorem encoded_payload_reaches_engine
    (stdin : Stdin) (request : Request.t) (ps : list string)
    (out : string) (w : World E) :
  failure stdin = None ->
  Request.Function request = "waveform" ->
  Request.Params request = snd (old.main stdin) :: ps ->
  base64.DecodeString (snd (old.main stdin)) = (data stdin, None) /\
  processRequest E opts request out w =
  match Generate E w (data stdin) opts with
  | (inr e, w') => Stop (renderFailure e) out w'
  | (inl img, w') =>
      match tiff.Encode E img with
      | inr e => Stop (Panicked (PanicTiff e)) out w'
      | inl buff => Continue (out ++ document (responseFor request buff)) w'
      end
  end.
Proof.
  intros Heof Hfn Hparams.
  pose proof (old_main_decodes stdin Heof) as Hdec.
  split; [exact Hdec|].
  unfold processRequest. rewrite Hfn, Hparams, Hdec; cbn [String.eqb].
  destruct (Generate E w (data stdin) opts) as [[img|e] w'].
  - destruct (tiff.Encode E img); reflexivity.
  - unfold renderFailure; destruct (known e); reflexivity.
Qed.

End Old.

Section Whitespace.

Lemma isSpace_cases (c : ascii) :
  json.isSpace c = true ->
  c = " "%char \/ c = "009"%char \/ c = "013"%char \/ c = "010"%char.
Proof.
  destruct c as [[] [] [] [] [] [] [] []]; cbn; intros H;
    try discriminate H; auto.
Qed.

Lemma beginToken_literalOK (c : ascii) (out out' : list json.token)
    (st' : json.lexState) :
  json.beginToken c out = Some (st', out') -> literalOK st'.
Proof.
  unfold json.beginToken.
  destruct (json.isSpace c); [intros [= <- <-]; exact I|].
  destruct c as [[] [] [] [] [] [] [] []]; cbn; try discriminate;
    intros [= <- <-]; try exact I; reflexivity.
Qed.

Lemma lexStep_literalOK (st st' : json.lexState) (c : ascii)
    (out out' : list json.token) :
  literalOK st -> json.lexStep st c out = Some (st', out') -> literalOK st'.
Proof.
  intros Hst.
  destruct st as [|acc|acc|todo acc|acc|acc|acc|acc|acc|acc|acc|acc|rest tok];
    cbn [json.lexStep]; unfold json.endNumber;
    repeat match goal with
           | |- context [if ?b then _ else _] => destruct b
           | |- context [match ?c with Ascii _ _ _ _ _ _ _ _ => _ end] =>
               is_var c; destruct c as [[] [] [] [] [] [] [] []]
           | |- context [match ?t with O => _ | S _ => _ end] => destruct t
           end;
    try discriminate;
    try (intros [= <- <-]; exact I);
    try (apply beginToken_literalOK).
  all: cbn [literalOK] in Hst.
  all: destruct rest as [|r [|r' rest]]; try discriminate.
  all: cbn [noSpace] in Hst.
  all: destruct (Ascii.eqb c r); try discriminate; intros [= <- <-]; try exact I.
  cbn [literalOK]. apply andb_true_iff in Hst as [_ Hst]. exact Hst.
Qed.

(** A byte of white space never changes what the end of input makes of
    the state. *)
Lemma space_step (st : json.lexState) (c : ascii) (out : list json.token) :
  literalOK st -> json.isSpace c = true ->
  match json.lexStep st c out with
  | None => json.lexEnd st out = None
  | Some (st', out') => json.lexEnd st' out' = json.lexEnd st out
  end.
Proof.
  intros Hst Hc.
  destruct st as [|acc|acc|todo acc|acc|acc|acc|acc|acc|acc|acc|acc|rest tok];
    try (destruct (isSpace_cases c Hc) as [->|[->|[->| ->]]]; reflexivity).
  cbn [literalOK] in Hst. cbn [json.lexStep].
  destruct rest as [|r [|r' rest]]; [reflexivity | |];
    cbn [noSpace] in Hst; apply andb_true_iff in Hst as [Hr _];
    (destruct (Ascii.eqb_spec c r) as [->|_]; [|reflexivity]);
    rewrite Hc in Hr; discriminate.
Qed.

Lemma lexLoop_spaces (ws : string) :
  allSpace ws = true ->
  forall st out, literalOK st ->
  json.lexLoop ws st out = json.lexEnd st out.
Proof.
  intros Hws. induction ws as [|c ws IH]; intros st out Hst; [reflexivity|].
  cbn [allSpace] in Hws. apply andb_true_iff in Hws as [Hc Hws].
  cbn [json.lexLoop].
  pose proof (space_step st c out Hst Hc) as Hstep.
  destruct (json.lexStep st c out) as [[st' out']|] eqn:Hs.
  - rewrite (IH Hws) by exact (lexStep_literalOK _ _ _ _ _ Hst Hs). exact Hstep.
  - symmetry; exact Hstep.
Qed.

Lemma lexLoop_trailing (ws : string) :
  allSpace ws = true ->
  forall data st out, literalOK st ->
  json.lexLoop (data ++ ws) st out = json.lexLoop data st out.
Proof.
  intros Hws data. induction data as [|c data IH]; intros st out Hst.
  - apply lexLoop_spaces; assumption.
  - cbn [append json.lexLoop].
    destruct (json.lexStep st c out) as [[st' out']|] eqn:Hs; [|reflexivity].
    apply IH. exact (lexStep_literalOK _ _ _ _ _ Hst Hs).
Qed.

Lemma lexLoop_leading (ws : string) :
  allSpace ws = true ->
  forall data out,
  json.lexLoop (ws ++ data) json.stateBegin out
  = json.lexLoop data json.stateBegin out.
Proof.
  intros Hws data. induction ws as [|c ws IH]; intros out; [reflexivity|].
  cbn [allSpace] in Hws. apply andb_true_iff in Hws as [Hc Hws].
  cbn [append json.lexLoop json.lexStep]. unfold json.beginToken. rewrite Hc.
  apply IH, Hws.
Qed.

(** White space around a document is no part of it. *)
Lemma Unmarshal_trim (pre data post : string) :
  allSpace pre = true -> allSpace post = true ->
  json.Unmarshal (pre ++ data ++ post) = json.Unmarshal data.
Proof.
  intros Hpre Hpost. unfold json.Unmarshal, json.scan, json.lex.
  rewrite lexLoop_leading by exact Hpre.
  rewrite lexLoop_trailing by (exact Hpost || exact I). reflexivity.
Qed.

Variable E : Engine.

(** X16. White space before and after the document on standard input is
    ignored: a batch followed by a newline, or indented, runs as the batch
    itself. *)
Theorem surrounding_whitespace_is_ignored
    (f : Flags) (w : World E) (pre text post : string) (fl : option string) :
  allSpace pre = true -> allSpace post = true ->
  In (strFn f) fnNames ->
  main E f (mkStdin (pre ++ text ++ post) fl) w = main E f (mkStdin text fl) w.
Proof.
  intros Hpre Hpost Hin.
  destruct (lookup_Some (fnSet f) (strFn f) Hin) as [colorFn Hfn].
  rewrite !main_unfold, Hfn. unfold atEnd. cbn [data failure].
  rewrite Unmarshal_trim by assumption. reflexivity.
Qed.

End Whitespace.

Section LineBreaks.

Lemma newline_decodeMap (c : ascii) :
  base64.isNewline c = true -> base64.decodeMap c = 255.
Proof.
  unfold base64.isNewline. intros H. apply orb_true_iff in H as [H|H];
    apply Ascii.eqb_eq in H; subst c; reflexivity.
Qed.

Lemma afterPadding_bytes (dbuf : list Z) (src : string) (si : Z) :
  fst (base64.afterPadding dbuf src si) = base64.quantumBytes dbuf.
Proof.
  unfold base64.afterPadding.
  destruct (base64.skipNewlines src si) as [[|c t] si2]; reflexivity.
Qed.

(** Where the skipping of newlines stops in a text and in the text without
    its line breaks. *)
Lemma skipNewlines_unwrap (s : string) :
  forall si si',
  exists s2 si2,
    base64.skipNewlines s si = (s2, si2)
    /\ base64.skipNewlines (unwrap s) si' = (unwrap s2, si')
    /\ (s2 = EmptyString
        \/ exists c t, s2 = String c t /\ base64.isNewline c = false).
Proof.
  induction s as [|c s IH]; intros si si'.
  - exists EmptyString, si. repeat split. left; reflexivity.
  - cbn [base64.skipNewlines unwrap].
    destruct (base64.isNewline c) eqn:Hc.
    + apply IH.
    + exists (String c s), si. cbn [unwrap base64.skipNewlines].
      rewrite Hc. repeat split. right. exists c, s. split; [reflexivity | exact Hc].
Qed.

(** The decoder gives the same bytes for a text and for the text without
    its line breaks. *)
Lemma decode_unwrap (s : string) :
  forall si si' dbuf,
  fst (base64.decode s si dbuf) = fst (base64.decode (unwrap s) si' dbuf).
Proof.
  induction s as [|c s IH]; intros si si' dbuf.
  { cbn [unwrap base64.decode]. destruct dbuf; reflexivity. }
  cbn [unwrap]. destruct (base64.isNewline c) eqn:Hc.
  - cbn [base64.decode]. cbv zeta.
    rewrite (newline_decodeMap c Hc), Hc. cbn [Z.eqb negb Pos.eqb]. apply IH.
  - cbn [base64.decode]. cbv zeta. rewrite Hc.
    destruct (negb (base64.decodeMap c =? 255)).
    + destruct (List.length (dbuf ++ [base64.decodeMap c]) =? 4)%nat.
      * pose proof (IH (si + 1) (si' + 1) []) as H.
        destruct (base64.decode s (si + 1) []) as [rest err].
        destruct (base64.decode (unwrap s) (si' + 1) []) as [rest' err'].
        cbn [fst] in *. rewrite H. reflexivity.
      * apply IH.
    + destruct (negb (Ascii.eqb c "=")); [reflexivity|].
      destruct (List.length dbuf) as [|[|[|n]]]; try reflexivity.
      * destruct (skipNewlines_unwrap s (si + 1) (si' + 1))
          as (s2 & si2 & H1 & H2 & H3).
        rewrite H1, H2.
        destruct H3 as [-> | (c2 & t & -> & Hc2)]; [reflexivity|].
        cbn [unwrap]. rewrite Hc2.
        destruct (negb (Ascii.eqb c2 "=")); [reflexivity|].
        rewrite !afterPadding_bytes. reflexivity.
      * rewrite !afterPadding_bytes. reflexivity.
Qed.

Variable E : Engine.

(** X17. Line breaks inside the base64 parameter do not matter: a request
    whose audio is wrapped over several lines is processed as the request
    with the unwrapped text. *)
Theorem line_breaks_in_payload_are_ignored
    (opts : list waveform.OptionsFunc) (id fn p : string) (ps : list string)
    (out : string) (w : World E) :
  processRequest E opts (Request.mk id fn (p :: ps)) out w
  = processRequest E opts (Request.mk id fn (unwrap p :: ps)) out w.
Proof.
  unfold processRequest. cbn [Request.Function Request.Params Request.Id].
  destruct (String.eqb fn "waveform"); [|reflexivity].
  unfold base64.DecodeString.
  pose proof (decode_unwrap p 0 0 []) as H.
  destruct (base64.decode p 0 []) as [unbased err].
  destruct (base64.decode (unwrap p) 0 []) as [unbased' err'].
  cbn [fst] in H. subst unbased'. reflexivity.
Qed.

End LineBreaks.

Section FurtherRuns.

Lemma read_error_is_reported_witness :
  main toyEngine defaultFlags (mkStdin batchABC (Some "read failed")) 0%nat
  = mkRun OsExit1 ("read failed" ++ String "010" EmptyString) EmptyString 0%nat.
Proof.
  exact (read_error_is_reported toyEngine defaultFlags
           (mkStdin batchABC (Some "read failed")) 0%nat solid "read failed"
           eq_refl eq_refl).
Defined.

Lemma known_function_reads_all_input_witness :
  unread (main toyEngine defaultFlags (eof batchBare) 0%nat) = EmptyString.
Proof.
  apply (known_function_reads_all_input toyEngine defaultFlags (eof batchBare) 0%nat).
  right; right; right; left; reflexivity.
Defined.

Lemma tiff_error_panics_witness :
  main brittleEngine defaultFlags (eof batchABC) 0%nat
  = mkRun (Panicked (PanicTiff "short write")) (document responseA) EmptyString 2%nat.
Proof.
  exact (tiff_error_panics brittleEngine defaultFlags (eof batchABC) 0%nat solid
           [requestA; requestB] [] requestC (document responseA) 1%nat 2%nat
           "REVG" [] "DEF" "short write"
           eq_refl eq_refl eq_refl eq_refl eq_refl eq_refl eq_refl eq_refl).
Defined.

Lemma no_render_request_no_engine_call_witness :
  main toyEngine defaultFlags (eof batchNoop) 0%nat
  = mkRun Returned EmptyString EmptyString 0%nat.
Proof.
  apply (no_render_request_no_engine_call toyEngine defaultFlags (eof batchNoop)
           0%nat solid); [reflexivity | reflexivity |].
  intros r H. vm_compute in H. destruct H as [<-|[<-|[]]]; discriminate.
Defined.

Lemma solid_ignores_alt_witness :
  main toyEngine (withAlt defaultFlags "#FF0000") (eof batchABC) 0%nat
  = main toyEngine defaultFlags (eof batchABC) 0%nat.
Proof.
  exact (solid_ignores_alt toyEngine defaultFlags "#FF0000" (eof batchABC) 0%nat
           eq_refl).
Defined.


Lemma hexToRGB_formatColor_witness :
  hexToRGB (formatColor 255 128 0) = (255, 128, 0).
Proof.
  apply (hexToRGB_formatColor 255 128 0); lia.
Defined.

Lemma old_main_round_trip_witness :
  fst (old.main (eof "ABCD")) = old.Returned /\
  base64.DecodeString (snd (old.main (eof "ABCD"))) = ("ABCD", None).
Proof.
  exact (old_main_round_trip (eof "ABCD") eq_refl).
Defined.

Example old_main_ABCD :
  old.main (eof "ABCD") = (old.Returned, "QUJDRA==" ++ String "010" EmptyString).
Proof. reflexivity. Qed.

Lemma old_main_output_shape_witness :
  exists text : string,
    snd (old.main (eof "ABCD")) = text ++ String "010" EmptyString /\
    String.length text = 8%nat /\
    plain text = true /\ newlines text = O.
Proof.
  exact (old_main_output_shape (eof "ABCD") eq_refl).
Defined.

Lemma encoded_payload_reaches_engine_witness :
  base64.DecodeString (snd (old.main (eof "ABC"))) = ("ABC", None) /\
  processRequest toyEngine sampleOptions
    (Request.mk "a" "waveform" [snd (old.main (eof "ABC"))]) EmptyString 0%nat
  = Continue (document responseA) 1%nat.
Proof.
  exact (encoded_payload_reaches_engine toyEngine sampleOptions (eof "ABC")
           (Request.mk "a" "waveform" [snd (old.main (eof "ABC"))]) []
           EmptyString 0%nat eq_refl eq_refl eq_refl).
Defined.

Lemma surrounding_whitespace_is_ignored_witness :
  main toyEngine defaultFlags
    (mkStdin ("  " ++ batchABC ++ String "010" EmptyString) None) 0%nat
  = main toyEngine defaultFlags (mkStdin batchABC None) 0%nat.
Proof.
  apply (surrounding_whitespace_is_ignored toyEngine defaultFlags 0%nat
           "  " batchABC (String "010" EmptyString) None);
    [reflexivity | reflexivity |].
  right; right; right; left; reflexivity.
Defined.

Example run_wrapped_payload :
  processRequest toyEngine sampleOptions
    (Request.mk "a" "waveform" ["QU" ++ String "013" (String "010" "JD")])
    EmptyString 0%nat
  = Continue (document responseA) 1%nat.
Proof. reflexivity. Qed.

End FurtherRuns.
